(** * GeoMod.VolumeFactory: a shallow embedding and its verified properties

    The module [GeoMod/VolumeFactory.py] builds trivariate spline volumes out
    of surfaces.  It is a thin client of the spline kernel ([Surface],
    [Volume], [BSplineBasis], [SurfaceFactory]) and of numpy.  The embedding
    below keeps that split:

    - Python floats are IEEE binary64 numbers, i.e. Rocq's primitive [float];
    - numpy arrays are a shape and a row-major (C order) list of floats;
    - surfaces are mutable objects living in a store, so that cloning and
      in-place kernel methods are observable;
    - the kernel is an interface ([Kernel]): the factory is verified against
      every implementation of it, and a small reference implementation is
      used to run the factory on concrete inputs. *)

From Stdlib Require Import String List Arith ZArith Lia Bool PrimFloat.
Import ListNotations.

Set Implicit Arguments.
Set Warnings "-register-all".

(** ** Python results and exceptions *)

Inductive exn : Type :=
| ValueError (msg : string)
| IndexError (msg : string)
| AttributeError (msg : string)
| TypeError (msg : string)
| LinAlgError (msg : string)
| SystemError (msg : string).

Inductive result (A : Type) : Type :=
| Ok (a : A)
| Raise (e : exn).

Arguments Ok {A} a.
Arguments Raise {A} e.

Definition rbind {A B : Type} (r : result A) (k : A -> result B) : result B :=
  match r with
  | Ok a => k a
  | Raise e => Raise e
  end.

(** [l[i]] on a Python list (non-negative index). *)
Definition list_getitem {A : Type} (l : list A) (i : nat) : result A :=
  match nth_error l i with
  | Some x => Ok x
  | None => Raise (IndexError "list index out of range")
  end.

(** ** numpy arrays *)

Module np.

Record ndarray : Type := mk { shape : list nat; data : list float }.

Definition size (sh : list nat) : nat := fold_right Nat.mul 1 sh.

Definition wf (a : ndarray) : Prop := length (data a) = size (shape a).

(** [np.zeros(shape)] *)
Definition zeros (sh : list nat) : ndarray := mk sh (repeat 0%float (size sh)).

(** Consecutive blocks of [c] entries: the rows of a C-ordered buffer. *)
Definition chunks {A : Type} (c : nat) (l : list A) : list (list A) :=
  map (fun i => firstn c (skipn (i * c) l)) (seq 0 (length l / c)).

(** The rows along the last axis. *)
Definition rows (a : ndarray) : list (list float) :=
  chunks (last (shape a) 1) (data a).

(** [np.reshape(a, newshape)] *)
Definition reshape (a : ndarray) (sh : list nat) : result ndarray :=
  if size sh =? size (shape a) then Ok (mk sh (data a))
  else Raise (ValueError "cannot reshape array").

(** Multi-index of a flat C-order position, and back. *)
Fixpoint unravel (sh : list nat) (k : nat) : list nat :=
  match sh with
  | [] => []
  | _ :: rest => (k / size rest) :: unravel rest (k mod size rest)
  end.

Fixpoint ravel (sh : list nat) (idx : list nat) : nat :=
  match sh, idx with
  | _ :: rest, i :: idx' => i * size rest + ravel rest idx'
  | _, _ => 0
  end.

Fixpoint index_of (m : nat) (l : list nat) : nat :=
  match l with
  | [] => 0
  | x :: l' => if x =? m then 0 else S (index_of m l')
  end.

Definition is_perm (axes : list nat) (rank : nat) : bool :=
  (length axes =? rank) && forallb (fun m => existsb (Nat.eqb m) axes) (seq 0 rank).

(** [a.transpose(axes)]: output axis [j] is input axis [axes[j]]. *)
Definition transpose (a : ndarray) (axes : list nat) : result ndarray :=
  if is_perm axes (length (shape a)) then
    let osh := map (fun p => nth p (shape a) 0) axes in
    let src k :=
      let oidx := unravel osh k in
      ravel (shape a)
            (map (fun m => nth (index_of m axes) oidx 0) (seq 0 (length (shape a)))) in
    Ok (mk osh (map (fun k => nth (src k) (data a) 0%float) (seq 0 (size osh))))
  else Raise (ValueError "axes don't match array").

(** [np.broadcast_to]-style expansion of a buffer of shape [src] to shape
    [tgt]; [src] is aligned with [tgt] from the right, and an axis of
    extent 1 is repeated. *)
Fixpoint broadcast (src tgt : list nat) (d : list float) : option (list float) :=
  match tgt with
  | [] => match src with [] => Some d | _ => None end
  | t :: tgt' =>
      if length src <=? length tgt' then
        option_map (fun r => concat (repeat r t)) (broadcast src tgt' d)
      else
        match src with
        | [] => None
        | s :: src' =>
            if s =? t then
              fold_right
                (fun i acc =>
                   match broadcast src' tgt' (firstn (size src') (skipn (i * size src') d)), acc with
                   | Some r, Some rs => Some (r ++ rs)
                   | _, _ => None
                   end)
                (Some []) (seq 0 s)
            else if s =? 1 then
              option_map (fun r => concat (repeat r t)) (broadcast src' tgt' d)
            else None
        end
  end.

Definition broadcast_to (b : ndarray) (sh : list nat) : result ndarray :=
  match broadcast (shape b) sh (data b) with
  | Some d => Ok (mk sh d)
  | None => Raise (ValueError "operands could not be broadcast together")
  end.

(** Item assignment additionally drops leading axes of extent 1 of the
    assigned value when it has more axes than the target. *)
Fixpoint strip_ones (excess : nat) (sh : list nat) : list nat :=
  match excess, sh with
  | S e, 1 :: sh' => strip_ones e sh'
  | _, _ => sh
  end.

Definition assign_to (b : ndarray) (sh : list nat) : result ndarray :=
  broadcast_to (mk (strip_ones (length (shape b) - length sh) (shape b)) (data b)) sh.

Fixpoint zip_with {A B C : Type} (f : A -> B -> C) (l : list A) (m : list B) : list C :=
  match l, m with
  | x :: l', y :: m' => f x y :: zip_with f l' m'
  | _, _ => []
  end.

(** [a += b], [a -= b] *)
Definition iadd (a b : ndarray) : result ndarray :=
  rbind (broadcast_to b (shape a))
        (fun b' => Ok (mk (shape a) (zip_with PrimFloat.add (data a) (data b')))).

Definition isub (a b : ndarray) : result ndarray :=
  rbind (broadcast_to b (shape a))
        (fun b' => Ok (mk (shape a) (zip_with PrimFloat.sub (data a) (data b')))).

(** [c * a] for a Python scalar [c] *)
Definition smul (c : float) (a : ndarray) : ndarray :=
  mk (shape a) (map (fun x => PrimFloat.mul c x) (data a)).

(** Replace the entries [lo, hi) of a buffer by [f] of them. *)
Definition splice {A : Type} (lo hi : nat) (f : list A -> list A) (l : list A) : list A :=
  firstn lo l ++ f (firstn (hi - lo) (skipn lo l)) ++ skipn hi l.

(** Python slice bounds [lo:hi] on an axis of extent [n] (non-negative bounds). *)
Definition clamp (n k : nat) : nat := Nat.min k n.

(** [a[lo:hi, :] = b] on a two-dimensional array. *)
Definition set_rows (a : ndarray) (lo hi : nat) (b : ndarray) : result ndarray :=
  match shape a with
  | [n; c] =>
      let lo' := clamp n lo in
      let hi' := Nat.max lo' (clamp n hi) in
      rbind (assign_to b [hi' - lo'; c])
            (fun b' => Ok (mk (shape a)
                              (splice (lo' * c) (hi' * c) (fun _ => data b') (data a))))
  | _ => Raise (IndexError "too many indices for array")
  end.

(** Apply [f] to entry [j] of a row. *)
Fixpoint update_at {A : Type} (j : nat) (f : A -> A) (l : list A) : list A :=
  match l, j with
  | [], _ => []
  | x :: l', O => f x :: l'
  | x :: l', S j' => x :: update_at j' f l'
  end.

(** [a[lo:hi, j] *= w] on a two-dimensional array. *)
Definition imul_col (a : ndarray) (lo hi j : nat) (w : float) : result ndarray :=
  match shape a with
  | [n; c] =>
      if j <? c then
        let lo' := clamp n lo in
        let hi' := Nat.max lo' (clamp n hi) in
        Ok (mk (shape a)
               (splice (lo' * c) (hi' * c)
                       (fun blk => concat (map (update_at j (fun x => PrimFloat.mul x w))
                                               (chunks c blk)))
                       (data a)))
      else Raise (IndexError "index is out of bounds for axis 1")
  | _ => Raise (IndexError "too many indices for array")
  end.

(** [a[:, :, k, :] = b] on a four-dimensional array. *)
Definition set_layer (a : ndarray) (k : nat) (b : ndarray) : result ndarray :=
  match shape a with
  | [n1; n2; n3; d] =>
      if k <? n3 then
        rbind (assign_to b [n1; n2; d])
              (fun b' =>
                 Ok (mk (shape a)
                        (concat (zip_with (fun blk row => splice (k * d) (k * d + d) (fun _ => row) blk)
                                          (chunks (n3 * d) (data a))
                                          (chunks d (data b'))))))
      else Raise (IndexError "index is out of bounds for axis 2")
  | _ => Raise (IndexError "too many indices for array")
  end.

(** [a[:, :, k, :]] on a four-dimensional array. *)
Definition get_layer (a : ndarray) (k : nat) : result ndarray :=
  match shape a with
  | [n1; n2; n3; d] =>
      if k <? n3 then
        Ok (mk [n1; n2; d]
               (concat (map (fun blk => firstn d (skipn (k * d) blk))
                            (chunks (n3 * d) (data a)))))
      else Raise (IndexError "index is out of bounds for axis 2")
  | _ => Raise (IndexError "too many indices for array")
  end.

End np.

(** ** The spline kernel's data *)

(** Modelled from the spec: the kernel's class [BSplineBasis] is imported by
    the factory, not defined in it.  Spec section 3 gives a basis its degree,
    its knot sequence and its periodicity flag; they are kept as the three
    arguments of [BSplineBasis(order, knots, periodic)], the order being the
    degree plus one. *)
Record Basis : Type := mkBasis {
  order : nat;
  knots : list float;
  periodic : Z
}.

(** Modelled from the spec: the kernel's class [Surface] (spec section 3: two
    bases, a two-dimensional lattice of control points, a dimension and a
    rational flag), under the attribute names the factory reads. *)
Module Surface.
Record t : Type := mk {
  bases : Basis * Basis;
  controlpoints : np.ndarray;      (* shape (n1, n2, dimension + rational) *)
  dimension : nat;
  rational : bool
}.
End Surface.

(** Modelled from the spec: the kernel's class [Volume] (spec section 3:
    three bases, a three-dimensional lattice of control points, a dimension
    and a rational flag), under the attribute names the factory assigns. *)
Module Volume.
Record t : Type := mk {
  bases : Basis * Basis * Basis;
  controlpoints : np.ndarray;      (* shape (n1, n2, n3, dimension + rational) *)
  dimension : nat;
  rational : bool
}.

Definition set_bases (v : t) (b : Basis * Basis * Basis) : t :=
  mk b (controlpoints v) (dimension v) (rational v).
Definition set_controlpoints (v : t) (c : np.ndarray) : t :=
  mk (bases v) c (dimension v) (rational v).
Definition set_dimension (v : t) (d : nat) : t :=
  mk (bases v) (controlpoints v) d (rational v).
Definition set_rational (v : t) (r : bool) : t :=
  mk (bases v) (controlpoints v) (dimension v) r.

(** [vol.clone()]: volumes are handled by value, a clone is a copy. *)
Definition clone (v : t) : t := v.
End Volume.

(** Control points handed to a constructor: a Python list of rows or an array. *)
Inductive array_like : Type :=
| PyRows (r : list (list float))
| NdArray (a : np.ndarray).

(** ** The kernel interface

    Everything [VolumeFactory] imports: the methods of [BSplineBasis],
    [Surface] and [Volume], the two [SurfaceFactory] functions, and the numpy
    routines whose floating-point results are numpy's own business.  In-place
    methods are functions from the old to the new state of the receiver. *)
Class Kernel : Type := {
  (* BSplineBasis(order=2, knots=None, periodic=-1) *)
  BSplineBasis : option nat -> option (list float) -> option Z -> result Basis;
  (* basis *= c *)
  basis_imul : Basis -> float -> result Basis;
  basis_greville : Basis -> result (list float);
  basis_num_functions : Basis -> result nat;
  (* basis(t): the collocation matrix *)
  basis_evaluate : Basis -> list float -> result np.ndarray;

  surface_set_dimension : Surface.t -> nat -> result Surface.t;
  surface_force_rational : Surface.t -> result Surface.t;
  (* len(surf) *)
  surface_len : Surface.t -> nat;
  (* surf[i] *)
  surface_getitem : Surface.t -> nat -> result (list float);
  (* for controlpoint in surf *)
  surface_iter : Surface.t -> list (list float);
  surface_rotate : Surface.t -> float -> result Surface.t;
  (* surf += x, surf -= x *)
  surface_iadd : Surface.t -> list float -> result Surface.t;
  surface_isub : Surface.t -> list float -> result Surface.t;
  surface_center : Surface.t -> result (list float);
  (* Surface.make_splines_identical(s1, s2) *)
  surface_make_splines_identical : Surface.t -> Surface.t -> result (Surface.t * Surface.t);

  (* Volume(basis1=None, basis2=None, basis3=None, controlpoints=None, rational=False) *)
  Volume_init : option Basis -> option Basis -> option Basis -> option array_like -> bool
                -> result Volume.t;
  volume_corners : Volume.t -> result np.ndarray;
  volume_swap : Volume.t -> nat -> nat -> result Volume.t;
  volume_make_splines_identical : Volume.t -> Volume.t -> result (Volume.t * Volume.t);

  SurfaceFactory_cylinder : float -> float -> result Surface.t;
  SurfaceFactory_edge_curves : list Surface.t -> result Surface.t;

  np_linalg_norm : list float -> float;
  np_linalg_inv : np.ndarray -> result np.ndarray;
  (* np.tensordot(a, b, axes=(i, j)) *)
  np_tensordot : np.ndarray -> np.ndarray -> nat -> nat -> result np.ndarray
}.

(** ** The store of surface objects, and the monad of factory code *)

Definition loc : Type := nat.
Definition heap : Type := list Surface.t.

Definition M (A : Type) : Type := heap -> result A * heap.

Definition ret {A : Type} (a : A) : M A := fun h => (Ok a, h).

Definition raise {A : Type} (e : exn) : M A := fun h => (Raise e, h).

Definition bind {A B : Type} (m : M A) (k : A -> M B) : M B :=
  fun h => match m h with
           | (Ok a, h') => k a h'
           | (Raise e, h') => (Raise e, h')
           end.

Definition lift {A : Type} (r : result A) : M A := fun h => (r, h).

Declare Scope py_scope.
Delimit Scope py_scope with py.
Notation "x <- m ;; k" := (bind m (fun x => k))
  (at level 100, m at next level, right associativity) : py_scope.
Notation "m ;;; k" := (bind m (fun _ => k))
  (at level 100, right associativity) : py_scope.
Open Scope py_scope.

(** Read the object behind a reference. *)
Definition deref (l : loc) : M Surface.t :=
  fun h => match nth_error h l with
           | Some s => (Ok s, h)
           | None => (Raise (SystemError "dangling reference"), h)
           end.

Fixpoint replace_nth {A : Type} (l : nat) (x : A) (h : list A) : list A :=
  match h, l with
  | [], _ => []
  | _ :: h', O => x :: h'
  | y :: h', S l' => y :: replace_nth l' x h'
  end.

(** Overwrite the object behind a reference (an in-place method returned). *)
Definition store (l : loc) (s : Surface.t) : M unit :=
  fun h => (Ok tt, replace_nth l s h).

(** [surf.clone()]: a fresh object with the same contents. *)
Definition clone (l : loc) : M loc :=
  s <- deref l ;;
  fun h => (Ok (length h), h ++ [s]).

(** An in-place kernel method on the object behind [l]. *)
Definition call (f : Surface.t -> result Surface.t) (l : loc) : M unit :=
  s <- deref l ;;
  s' <- lift (f s) ;;
  store l s'.

(** A kernel class method mutating both of its arguments. *)
Definition call2 (f : Surface.t -> Surface.t -> result (Surface.t * Surface.t))
           (l1 l2 : loc) : M unit :=
  s1 <- deref l1 ;;
  s2 <- deref l2 ;;
  p <- lift (f s1 s2) ;;
  store l1 (fst p) ;;;
  store l2 (snd p).

(** [for x in l: acc = body(acc, x)] *)
Fixpoint for_each {A S : Type} (l : list A) (body : S -> A -> M S) (acc : S) : M S :=
  match l with
  | [] => ret acc
  | x :: l' => acc' <- body acc x ;; for_each l' body acc'
  end.

(** [[f(x) for x in l]] *)
Fixpoint map_m {A B : Type} (f : A -> M B) (l : list A) : M (list B) :=
  match l with
  | [] => ret []
  | x :: l' => y <- f x ;; ys <- map_m f l' ;; ret (y :: ys)
  end.

(** ** Python values reaching [edge_surfaces]

    [edge_surfaces] takes a variable number of arguments and inspects them
    only through [len], indexing and [.clone()], so a lone surface, a
    collection, a control point (what indexing a surface yields) and a float
    (what indexing a control point yields) are told apart. *)
Inductive pyval : Type :=
| PySurface (l : loc)
| PyList (items : list pyval)
| PyPoint (p : list float)
| PyFloat (x : float).

(** [math.pi] *)
Definition pi : float := 0x1.921fb54442d18p+1%float.

(** ** Reading a surface lattice

    The control point [(i, j)] of a lattice of shape [(n1, n2, d)] stored in
    C order, and the control points in the order in which the first
    parametric index runs fastest. *)
Definition lattice_point (a : np.ndarray) (i j : nat) : list float :=
  match np.shape a with
  | [n1; n2; d] => map (fun c => nth ((i * n2 + j) * d + c) (np.data a) 0%float) (seq 0 d)
  | _ => []
  end.

Definition lattice_points (a : np.ndarray) : list (list float) :=
  match np.shape a with
  | [n1; n2; d] => map (fun r => lattice_point a (r mod n1) (r / n1)) (seq 0 (n1 * n2))
  | _ => []
  end.

(** ** The layout [revolve] is meant to produce

    Station [i] carries the control points of the profile after [i] eighth
    turns, with the [z] and [w] channels of every point multiplied by the
    station's weight: 1 on even stations, [1/sqrt(2)] on odd ones. *)
Definition station_weight (i : nat) : float :=
  if Nat.even i then 1%float else (1 / sqrt 2)%float.

Definition scale_zw (w : float) (p : list float) : list float :=
  np.update_at 3 (fun x => PrimFloat.mul x w) (np.update_at 2 (fun x => PrimFloat.mul x w) p).

Definition station (i : nat) (profile : Surface.t) : list (list float) :=
  map (scale_zw (station_weight i)) (lattice_points (Surface.controlpoints profile)).

(** The control points of the eight stations, station after station, for the
    profiles [p 0], ..., [p 7], and the array holding them. *)
Definition stations (p : nat -> Surface.t) (k : nat) : list (list float) :=
  concat (map (fun i => station i (p i)) (seq 0 k)).

Definition revolve_lattice (p : nat -> Surface.t) (n : nat) : np.ndarray :=
  np.mk [8 * n; 4] (concat (stations p 8)).

(** A control point moved onto the rotation axis: [x] and [y] become 0. *)
Definition project_to_axis (p : list float) : list float :=
  np.update_at 1 (fun _ => 0%float) (np.update_at 0 (fun _ => 0%float) p).

(** The lattice of the ruled volume between two surface lattices of the same
    shape [(n1, n2, d)]: at every [(i, j)] the control point of the first
    lattice is followed by the control point of the second. *)
Definition ruled_lattice (c1 c2 : np.ndarray) : np.ndarray :=
  match np.shape c1 with
  | [n1; n2; d] =>
      np.mk [n1; n2; 2; d]
            (concat (np.zip_with (@app float) (np.chunks d (np.data c1)) (np.chunks d (np.data c2))))
  | _ => np.zeros [0]
  end.

(** The ruled volume between two unified surfaces, with [lin] as third basis. *)
Definition ruled_volume (u1 u2 : Surface.t) (lin : Basis) : Volume.t :=
  Volume.mk (fst (Surface.bases u1), snd (Surface.bases u1), lin)
            (ruled_lattice (Surface.controlpoints u1) (Surface.controlpoints u2))
            (Surface.dimension u1) (Surface.rational u1).

Section VolumeFactory.

Context {K : Kernel}.

(** [len(v)] *)
Definition py_len (v : pyval) : M nat :=
  match v with
  | PySurface l => s <- deref l ;; ret (surface_len s)
  | PyList items => ret (length items)
  | PyPoint p => ret (length p)
  | PyFloat _ => raise (TypeError "object of type 'float' has no len()")
  end.

(** [v[i]] *)
Definition py_getitem (v : pyval) (i : nat) : M pyval :=
  match v with
  | PySurface l => s <- deref l ;; p <- lift (surface_getitem s i) ;; ret (PyPoint p)
  | PyList items => lift (list_getitem items i)
  | PyPoint p => x <- lift (list_getitem p i) ;; ret (PyFloat x)
  | PyFloat _ => raise (TypeError "'float' object is not subscriptable")
  end.

(** [v.clone()]: only surfaces have the method. *)
Definition py_clone (v : pyval) : M loc :=
  match v with
  | PySurface l => clone l
  | _ => raise (AttributeError "object has no attribute 'clone'")
  end.

(** *** revolve *)

(** One turn of the loop [for i in range(8)]. *)
Definition revolve_station (surf : loc) (n : nat) (cp : np.ndarray) (i : nat)
  : M np.ndarray :=
  let weight := if i mod 2 =? 0 then 1.0%float else (1.0 / sqrt 2)%float in
  s <- deref surf ;;
  t <- lift (np.transpose (Surface.controlpoints s) [1; 0; 2]) ;;
  b <- lift (np.reshape t [n; 4]) ;;
  cp <- lift (np.set_rows cp (i * n) ((i + 1) * n) b) ;;
  cp <- lift (np.imul_col cp (i * n) ((i + 1) * n) 2 weight) ;;
  cp <- lift (np.imul_col cp (i * n) ((i + 1) * n) 3 weight) ;;
  call (fun s => surface_rotate s (pi / 4)%float) surf ;;;
  ret cp.

Definition revolve (surf : loc) (theta : float) : M Volume.t :=
  surf <- clone surf ;;
  call (fun s => surface_set_dimension s 3) surf ;;;
  call surface_force_rational surf ;;;
  s <- deref surf ;;
  let n := surface_len s in
  let cp := np.zeros [8 * n; 4] in
  basis <- lift (BSplineBasis (Some 3)
                              (Some [-1; 0; 0; 1; 1; 2; 2; 3; 3; 4; 4; 5]%float)
                              (Some 0%Z)) ;;
  basis <- lift (basis_imul basis (2 * pi / 4)%float) ;;
  cp <- for_each (seq 0 8) (revolve_station surf n) cp ;;
  s <- deref surf ;;
  lift (Volume_init (Some (fst (Surface.bases s))) (Some (snd (Surface.bases s)))
                    (Some basis) (Some (NdArray cp)) true).

(** [revolve(surf)] with the default [theta=2*pi]. *)
Definition revolve_default (surf : loc) : M Volume.t := revolve surf (2 * pi)%float.

(** *** cylinder *)

Definition cylinder (r h : float) : M Volume.t :=
  shell <- lift (SurfaceFactory_cylinder r h) ;;
  cp <- for_each (surface_iter shell)
                 (fun cp controlpoint =>
                    z <- lift (list_getitem controlpoint 2) ;;
                    w <- lift (list_getitem controlpoint 3) ;;
                    ret (cp ++ [[0; 0; z; w]%float]))
                 [] ;;
  cp <- for_each (surface_iter shell)
                 (fun cp controlpoint => ret (cp ++ [controlpoint]))
                 cp ;;
  b <- lift (BSplineBasis None None None) ;;
  lift (Volume_init (Some (fst (Surface.bases shell))) (Some (snd (Surface.bases shell)))
                    (Some b) (Some (PyRows cp)) true).

(** *** extrude *)

Definition extrude (surf : loc) (h : float) : M Volume.t :=
  call (fun s => surface_set_dimension s 3) surf ;;;
  s <- deref surf ;;
  cp <- for_each (surface_iter s) (fun cp controlpoint => ret (cp ++ [controlpoint])) [] ;;
  call (fun s => surface_iadd s [0; 0; h]%float) surf ;;;
  s <- deref surf ;;
  cp <- for_each (surface_iter s) (fun cp controlpoint => ret (cp ++ [controlpoint])) cp ;;
  call (fun s => surface_isub s [0; 0; h]%float) surf ;;;
  s <- deref surf ;;
  b <- lift (BSplineBasis (Some 2) None None) ;;
  lift (Volume_init (Some (fst (Surface.bases s))) (Some (snd (Surface.bases s)))
                    (Some b) (Some (PyRows cp)) (Surface.rational s)).

(** *** edge_surfaces *)

(** The branch [len(surfaces) == 2]. *)
Definition edge_surfaces_2 (surfaces : pyval) : M Volume.t :=
  s0 <- py_getitem surfaces 0 ;;
  surf1 <- py_clone s0 ;;
  s1 <- py_getitem surfaces 1 ;;
  surf2 <- py_clone s1 ;;
  call2 surface_make_splines_identical surf1 surf2 ;;;
  u1 <- deref surf1 ;;
  match np.shape (Surface.controlpoints u1) with
  | [n1; n2; d] =>
      let controlpoints := np.zeros [n1; n2; 2; d] in
      controlpoints <- lift (np.set_layer controlpoints 0 (Surface.controlpoints u1)) ;;
      u2 <- deref surf2 ;;
      controlpoints <- lift (np.set_layer controlpoints 1 (Surface.controlpoints u2)) ;;
      result <- lift (Volume_init None None None None false) ;;
      lin <- lift (BSplineBasis (Some 2) None None) ;;
      let result := Volume.set_bases result
                      (fst (Surface.bases u1), snd (Surface.bases u1), lin) in
      let result := Volume.set_dimension result (Surface.dimension u1) in
      let result := Volume.set_rational result (Surface.rational u1) in
      let result := Volume.set_controlpoints result controlpoints in
      ret result
  | _ => raise (ValueError "wrong number of values to unpack")
  end.

(** The branch [len(surfaces) == 6]; its calls [edge_surfaces(a, b)] land in
    the two-surface branch. *)
Definition edge_surfaces_6 (surfaces : pyval) : M Volume.t :=
  umin <- py_getitem surfaces 0 ;;
  umax <- py_getitem surfaces 1 ;;
  vmin <- py_getitem surfaces 2 ;;
  vmax <- py_getitem surfaces 3 ;;
  wmin <- py_getitem surfaces 4 ;;
  wmax <- py_getitem surfaces 5 ;;
  vol1 <- edge_surfaces_2 (PyList [umin; umax]) ;;
  vol2 <- edge_surfaces_2 (PyList [vmin; vmax]) ;;
  vol3 <- edge_surfaces_2 (PyList [wmin; wmax]) ;;
  corners <- lift (volume_corners vol1) ;;
  vol4 <- lift (Volume_init None None None (Some (NdArray corners)) (Volume.rational vol1)) ;;
  vol1 <- lift (volume_swap vol1 0 2) ;;
  vol1 <- lift (volume_swap vol1 1 2) ;;
  vol2 <- lift (volume_swap vol2 1 2) ;;
  vol4 <- lift (volume_swap vol4 1 2) ;;
  p12 <- lift (volume_make_splines_identical vol1 vol2) ;;
  p13 <- lift (volume_make_splines_identical (fst p12) vol3) ;;
  p14 <- lift (volume_make_splines_identical (fst p13) vol4) ;;
  p23 <- lift (volume_make_splines_identical (snd p12) (snd p13)) ;;
  p24 <- lift (volume_make_splines_identical (fst p23) (snd p14)) ;;
  p34 <- lift (volume_make_splines_identical (snd p23) (snd p24)) ;;
  let vol1 := fst p14 in
  let vol2 := fst p24 in
  let vol3 := fst p34 in
  let vol4 := snd p34 in
  let result := Volume.clone vol1 in
  c <- lift (np.iadd (Volume.controlpoints result) (Volume.controlpoints vol2)) ;;
  let result := Volume.set_controlpoints result c in
  c <- lift (np.iadd (Volume.controlpoints result) (Volume.controlpoints vol3)) ;;
  let result := Volume.set_controlpoints result c in
  c <- lift (np.isub (Volume.controlpoints result) (np.smul 2%float (Volume.controlpoints vol4))) ;;
  let result := Volume.set_controlpoints result c in
  ret result.

Definition edge_surfaces (args : list pyval) : M Volume.t :=
  surfaces <- (if length args =? 1 then py_getitem (PyList args) 0
               else ret (PyList args)) ;;
  n <- py_len surfaces ;;
  if n =? 2 then edge_surfaces_2 surfaces
  else
    n <- py_len surfaces ;;
    if n =? 6 then edge_surfaces_6 surfaces
    else raise (ValueError "Requires two or six input surfaces").

(** *** loft *)

(** [a - b] on one-dimensional arrays. *)
Definition vec_sub (a b : list float) : result (list float) :=
  if length a =? length b then Ok (np.zip_with PrimFloat.sub a b)
  else if length b =? 1 then Ok (map (fun x => PrimFloat.sub x (hd 0%float b)) a)
  else if length a =? 1 then Ok (map (fun y => PrimFloat.sub (hd 0%float a) y) b)
  else Raise (ValueError "operands could not be broadcast together").

(** One turn of [for (x1,x0) in zip(x[1:],x[:-1])]; [dist] is never empty,
    so [dist[-1]] is its last entry. *)
Definition loft_dist_step (dist : list float) (p : list float * list float)
  : M (list float) :=
  d <- lift (vec_sub (firstn 3 (fst p)) (firstn 3 (snd p))) ;;
  ret (dist ++ [(last dist 0 + np_linalg_norm d)%float]).

(** [[dist[0]]*4 + dist[2:-2] + [dist[-1]]*4] *)
Definition loft_knot (dist : list float) : list float :=
  repeat (hd 0%float dist) 4
  ++ firstn (length dist - 2 - 2) (skipn 2 dist)
  ++ repeat (last dist 0%float) 4.

(** The parametrization of the new direction: the basis and the
    interpolation parameters chosen by the [elif]/[else] branches. *)
Definition loft_parametrize (surfaces : list loc) : M (Basis * list float) :=
  if length surfaces =? 3 then
    basis3 <- lift (BSplineBasis (Some 3) None None) ;;
    dist <- lift (basis_greville basis3) ;;
    ret (basis3, dist)
  else
    x <- map_m (fun s => v <- deref s ;; lift (surface_center v)) surfaces ;;
    dist <- for_each (combine (tl x) (removelast x)) loft_dist_step [0%float] ;;
    let knot := loft_knot dist in
    basis3 <- lift (BSplineBasis (Some 4) (Some knot) None) ;;
    ret (basis3, dist).

(** Everything after the branches: unification, collocation and the
    separable solve. *)
Definition loft_solve (surfaces : list loc) (basis3 : Basis) (dist : list float)
  : M Volume.t :=
  let n := length surfaces in
  for_each (seq 0 n)
           (fun _ i =>
              for_each (seq (i + 1) (n - (i + 1)))
                       (fun _ j =>
                          si <- lift (list_getitem surfaces i) ;;
                          sj <- lift (list_getitem surfaces j) ;;
                          call2 surface_make_splines_identical si sj)
                       tt)
           tt ;;;
  s0 <- lift (list_getitem surfaces 0) ;;
  v0 <- deref s0 ;;
  let basis1 := fst (Surface.bases v0) in
  let basis2 := snd (Surface.bases v0) in
  m1 <- lift (basis_num_functions basis1) ;;
  m2 <- lift (basis_num_functions basis2) ;;
  p0 <- lift (surface_getitem v0 0) ;;
  let dim := length p0 in
  u <- lift (basis_greville basis1) ;;
  v <- lift (basis_greville basis2) ;;
  let w := dist in
  Nu <- lift (basis_evaluate basis1 u) ;;
  Nv <- lift (basis_evaluate basis2 v) ;;
  Nw <- lift (basis_evaluate basis3 w) ;;
  Nu_inv <- lift (np_linalg_inv Nu) ;;
  Nv_inv <- lift (np_linalg_inv Nv) ;;
  Nw_inv <- lift (np_linalg_inv Nw) ;;
  x <- for_each (seq 0 n)
                (fun x i =>
                   si <- lift (list_getitem surfaces i) ;;
                   vi <- deref si ;;
                   tmp <- lift (np_tensordot Nv (Surface.controlpoints vi) 1 1) ;;
                   xi <- lift (np_tensordot Nu tmp 1 1) ;;
                   lift (np.set_layer x i xi))
                (np.zeros [m1; m2; n; dim]) ;;
  cp <- lift (np_tensordot Nw_inv x 1 2) ;;
  cp <- lift (np_tensordot Nv_inv cp 1 2) ;;
  cp <- lift (np_tensordot Nu_inv cp 1 2) ;;
  t <- lift (np.transpose cp [2; 1; 0; 3]) ;;
  cp <- lift (np.reshape t [m1 * m2 * n; dim]) ;;
  v0 <- deref s0 ;;
  lift (Volume_init (Some basis1) (Some basis2) (Some basis3) (Some (NdArray cp))
                    (Surface.rational v0)).

(** [loft] returns whatever its branch returns: the volume it assembles,
    or, for two surfaces, the object [SurfaceFactory.edge_curves] builds,
    which is a surface. *)
Definition loft (surfaces : list loc) : M (Volume.t + Surface.t) :=
  surfaces <- map_m (fun s =>
                       c <- clone s ;;
                       call (fun s => surface_set_dimension s 3) c ;;;
                       ret c)
                    surfaces ;;
  if length surfaces =? 2 then
    objs <- map_m deref surfaces ;;
    r <- lift (SurfaceFactory_edge_curves objs) ;;
    ret (inr r)
  else
    p <- loft_parametrize surfaces ;;
    v <- loft_solve surfaces (fst p) (snd p) ;;
    ret (inl v).

End VolumeFactory.

(** ** What unification delivers

    Two surfaces are unified by the kernel into [u1] and [u2] when
    [Surface.make_splines_identical] returns them and their lattices are
    well-formed arrays of one shape [(n1, n2, d)]. *)
Definition unified {K : Kernel} (s1 s2 u1 u2 : Surface.t) : Prop :=
  surface_make_splines_identical s1 s2 = Ok (u1, u2)
  /\ (exists n1 n2 d,
         np.shape (Surface.controlpoints u1) = [n1; n2; d]
         /\ np.shape (Surface.controlpoints u2) = [n1; n2; d])
  /\ np.wf (Surface.controlpoints u1)
  /\ np.wf (Surface.controlpoints u2).

(** ** The operands of the Coons blend (spec section 4.3, six surfaces)

    [r1], [r2], [r3] are the ruled volumes of the three opposing pairs. *)
Section Coons.

Context {K : Kernel}.

(** The trilinear volume on the eight corner points of [r1]. *)
Definition corner_volume (r1 : Volume.t) : result Volume.t :=
  rbind (volume_corners r1)
        (fun c => Volume_init None None None (Some (NdArray c)) (Volume.rational r1)).

(** The axis swaps bringing the four volumes to one axis convention. *)
Definition common_axes (r1 r2 r3 r4 : Volume.t)
  : result (Volume.t * Volume.t * Volume.t * Volume.t) :=
  rbind (volume_swap r1 0 2) (fun v1 =>
  rbind (volume_swap v1 1 2) (fun v1 =>
  rbind (volume_swap r2 1 2) (fun v2 =>
  rbind (volume_swap r4 1 2) (fun v4 =>
  Ok (v1, v2, r3, v4))))).

(** Refine-to-match across every pair, in the order (1,2), (1,3), (1,4),
    (2,3), (2,4), (3,4). *)
Definition unify_pairwise (v1 v2 v3 v4 : Volume.t)
  : result (Volume.t * Volume.t * Volume.t * Volume.t) :=
  rbind (volume_make_splines_identical v1 v2) (fun p12 =>
  rbind (volume_make_splines_identical (fst p12) v3) (fun p13 =>
  rbind (volume_make_splines_identical (fst p13) v4) (fun p14 =>
  rbind (volume_make_splines_identical (snd p12) (snd p13)) (fun p23 =>
  rbind (volume_make_splines_identical (fst p23) (snd p14)) (fun p24 =>
  rbind (volume_make_splines_identical (snd p23) (snd p24)) (fun p34 =>
  Ok (fst p14, fst p24, fst p34, snd p34))))))).

Definition coons_operands (r1 r2 r3 : Volume.t)
  : result (Volume.t * Volume.t * Volume.t * Volume.t) :=
  rbind (corner_volume r1) (fun r4 =>
  rbind (common_axes r1 r2 r3 r4) (fun vs =>
  match vs with
  | (v1, v2, v3, v4) => unify_pairwise v1 v2 v3 v4
  end)).

End Coons.

(** [V1 + V2 + V3 - 2*V4] on lattices of one shape, entry by entry, in the
    order in which the factory accumulates it. *)
Definition coons_sum (c1 c2 c3 c4 : np.ndarray) : np.ndarray :=
  np.mk (np.shape c1)
        (np.zip_with PrimFloat.sub
                     (np.zip_with PrimFloat.add
                                  (np.zip_with PrimFloat.add (np.data c1) (np.data c2))
                                  (np.data c3))
                     (map (fun x => PrimFloat.mul 2%float x) (np.data c4))).

(** The value [edge_surfaces] measures and indexes: its tuple of arguments,
    or the lone argument itself when there is exactly one. *)
Definition inspected (args : list pyval) : pyval :=
  match args with
  | [x] => x
  | _ => PyList args
  end.

(** ** The parametrization of a loft through four or more sections *)
Section LoftParametrization.

Context {K : Kernel}.

(** A cross-section [s], found in the store [h] behind [l], promoted to
    three dimensions as [s']. *)
Definition promoted_from (h : heap) (l : loc) (s' : Surface.t) : Prop :=
  exists s, nth_error h l = Some s /\ surface_set_dimension s 3 = Ok s'.

(** Euclidean distance between two centers, on the first three coordinates. *)
Definition center_distance (x0 x1 : list float) : float :=
  np_linalg_norm (np.zip_with PrimFloat.sub (firstn 3 x1) (firstn 3 x0)).

(** Running sums of the distances between consecutive centers. *)
Fixpoint distances_from (acc : float) (x : list (list float)) : list float :=
  match x with
  | x0 :: rest =>
      match rest with
      | x1 :: _ =>
          let acc' := PrimFloat.add acc (center_distance x0 x1) in
          acc' :: distances_from acc' rest
      | [] => []
      end
  | [] => []
  end.

Definition cumulative_distances (x : list (list float)) : list float :=
  0%float :: distances_from 0%float x.

End LoftParametrization.

(** The knots of a clamped basis strictly between its two end blocks. *)
Definition interior_knots (b : Basis) : list float :=
  firstn (length (knots b) - 2 * order b) (skipn (order b) (knots b)).

(** ** Which objects factory code writes to

    [writes_above k m Q]: run from a store holding at least [k] objects, [m]
    leaves the first [k] objects as they are, whether it returns or raises,
    and a returned value satisfies [Q]. *)

Definition writes_above {A : Type} (k : nat) (m : M A) (Q : A -> Prop) : Prop :=
  forall h, k <= length h ->
    firstn k (snd (m h)) = firstn k h
    /\ k <= length (snd (m h))
    /\ match fst (m h) with
       | Ok a => Q a
       | Raise _ => True
       end.

(** ** A reference kernel

    Modelled from the spec: the kernel's sources are not part of the volume
    factory, so the services listed in spec section 6 are given a small
    executable implementation over control-point lattices, written from the
    spec's data model (section 3) and from the way [VolumeFactory] uses them.
    It is only used to run the factory on concrete inputs.  Two services are
    narrower than a production kernel: unification accepts two geometries
    that already share their bases, dimension and rational flag (it does no
    knot insertion or degree elevation), and [SurfaceFactory.edge_curves],
    a builder for curves, refuses surface arguments. *)
Module RefKernel.

Definition default {A : Type} (d : A) (o : option A) : A :=
  match o with Some x => x | None => d end.

(** *** One-dimensional bases *)

Fixpoint nondecreasing (l : list float) : bool :=
  match l with
  | a :: (b :: _) as rest => PrimFloat.leb a b && nondecreasing rest
  | _ => true
  end.

(** Modelled from the spec: construct a basis from order, knot sequence and
    periodicity; the knot sequence must be long enough and non-decreasing
    (spec section 3).  The default is the linear basis on [0, 1]. *)
Definition BSplineBasis (order : option nat) (knots : option (list float))
           (periodic : option Z) : result Basis :=
  let p := default 2 order in
  let kn := default (repeat 0%float p ++ repeat 1%float p) knots in
  let per := Z.max (default (-1)%Z periodic) (-1) in
  if p <? 1 then Raise (ValueError "invalid spline order")
  else if length kn <? 2 * p then Raise (ValueError "knot vector has too few elements")
  else if nondecreasing kn then Ok (mkBasis p kn per)
  else Raise (ValueError "non-increasing knot vector").

(** Modelled from the spec: scale a basis's parametric domain. *)
Definition basis_imul (b : Basis) (c : float) : result Basis :=
  Ok (mkBasis (order b) (map (fun k => PrimFloat.mul k c) (knots b)) (periodic b)).

Definition num_functions (b : Basis) : nat :=
  length (knots b) - order b - Z.to_nat (periodic b + 1).

Definition fsum (l : list float) : float := fold_left PrimFloat.add l 0%float.

Fixpoint of_nat (n : nat) : float :=
  match n with
  | 0 => 0%float
  | S n' => PrimFloat.add (of_nat n') 1%float
  end.

(** Modelled from the spec: the Greville abscissae, the means of [order - 1]
    consecutive knots. *)
Definition basis_greville (b : Basis) : result (list float) :=
  Ok (map (fun i => PrimFloat.div (fsum (firstn (order b - 1) (skipn (i + 1) (knots b))))
                                  (of_nat (order b - 1)))
          (seq 0 (num_functions b))).

Definition knot (kn : list float) (i : nat) : float := nth i kn 0%float.

Definition ratio (num den : float) : float :=
  if PrimFloat.eqb den 0%float then 0%float else PrimFloat.div num den.

(** Cox-de Boor recursion for the function [i] of order [p]; the last knot
    belongs to the last non-empty span. *)
Fixpoint bspline (kn : list float) (p i : nat) (t : float) : float :=
  match p with
  | 0 => 0%float
  | 1 =>
      let a := knot kn i in
      let b := knot kn (i + 1) in
      if PrimFloat.leb a t && PrimFloat.ltb t b then 1%float
      else if PrimFloat.ltb a b && PrimFloat.eqb t b && PrimFloat.eqb b (last kn 0%float)
           then 1%float
           else 0%float
  | S p' =>
      PrimFloat.add
        (PrimFloat.mul (ratio (PrimFloat.sub t (knot kn i))
                              (PrimFloat.sub (knot kn (i + p')) (knot kn i)))
                       (bspline kn p' i t))
        (PrimFloat.mul (ratio (PrimFloat.sub (knot kn (i + p' + 1)) t)
                              (PrimFloat.sub (knot kn (i + p' + 1)) (knot kn (i + 1))))
                       (bspline kn p' (i + 1) t))
  end.

(** Modelled from the spec: the collocation matrix of a basis at a set of
    parameter points, one row per point. *)
Definition basis_evaluate (b : Basis) (t : list float) : result np.ndarray :=
  if (0 <=? periodic b)%Z
  then Raise (ValueError "periodic bases are not evaluated by the reference kernel")
  else
    let n := num_functions b in
    Ok (np.mk [length t; n]
              (concat (map (fun x => map (fun i => bspline (knots b) (order b) i x) (seq 0 n)) t))).

(** *** Control-point lattices *)

(** Apply [f] to every control point; [d] is the new channel count. *)
Definition map_points (d : nat) (f : list float -> list float) (a : np.ndarray) : np.ndarray :=
  np.mk (removelast (np.shape a) ++ [d]) (concat (map f (np.rows a))).

Definition channels (dim : nat) (rational : bool) : nat :=
  dim + (if rational then 1 else 0).

(** Modelled from the spec: promote (or cut) the spatial dimension; new
    coordinates are zero and the weight, if any, stays last. *)
Definition surface_set_dimension (s : Surface.t) (new_dim : nat) : result Surface.t :=
  let dim := Surface.dimension s in
  let f p := firstn new_dim (firstn dim p ++ repeat 0%float (new_dim - dim)) ++ skipn dim p in
  Ok (Surface.mk (Surface.bases s)
                 (map_points (channels new_dim (Surface.rational s)) f (Surface.controlpoints s))
                 new_dim (Surface.rational s)).

(** Modelled from the spec: promote to rational form, with weight 1. *)
Definition surface_force_rational (s : Surface.t) : result Surface.t :=
  if Surface.rational s then Ok s
  else Ok (Surface.mk (Surface.bases s)
                      (map_points (Surface.dimension s + 1) (fun p => p ++ [1%float])
                                  (Surface.controlpoints s))
                      (Surface.dimension s) true).

(** Modelled from the spec: [len(surf)], the number of control points. *)
Definition surface_len (s : Surface.t) : nat :=
  match np.shape (Surface.controlpoints s) with
  | [n1; n2; _] => n1 * n2
  | _ => 0
  end.

(** Modelled from the spec: iterate the control points in the kernel's
    traversal order, the first parametric index running fastest. *)
Definition surface_iter (s : Surface.t) : list (list float) :=
  lattice_points (Surface.controlpoints s).

(** Modelled from the spec: [surf[i]], the control point number [i] of that
    traversal. *)
Definition surface_getitem (s : Surface.t) (i : nat) : result (list float) :=
  match nth_error (surface_iter s) i with
  | Some p => Ok p
  | None => Raise (IndexError "control point index out of range")
  end.

(** Truncated power series, accurate to the last place for the angles the
    factory uses. *)
Fixpoint horner (x2 : float) (a fuel k : nat) : float :=
  match fuel with
  | 0 => 1%float
  | S fuel' =>
      let den := PrimFloat.mul (of_nat (2 * k + a)) (of_nat (2 * k + a + 1)) in
      PrimFloat.sub 1%float
                    (PrimFloat.mul (PrimFloat.div x2 den) (horner x2 a fuel' (k + 1)))
  end.

Definition cos (x : float) : float := horner (PrimFloat.mul x x) 1 20 0.
Definition sin (x : float) : float := PrimFloat.mul x (horner (PrimFloat.mul x x) 2 20 0).

(** Modelled from the spec: rotate the control points about the [z] axis. *)
Definition surface_rotate (s : Surface.t) (theta : float) : result Surface.t :=
  if Surface.dimension s <? 2 then Raise (ValueError "rotation needs two coordinates")
  else
    let c := cos theta in
    let sn := sin theta in
    let f p :=
      match p with
      | x :: y :: rest =>
          PrimFloat.sub (PrimFloat.mul c x) (PrimFloat.mul sn y)
          :: PrimFloat.add (PrimFloat.mul sn x) (PrimFloat.mul c y)
          :: rest
      | _ => p
      end in
    Ok (Surface.mk (Surface.bases s)
                   (map_points (channels (Surface.dimension s) (Surface.rational s)) f
                               (Surface.controlpoints s))
                   (Surface.dimension s) (Surface.rational s)).

(** Translation by [x], in homogeneous coordinates when rational. *)
Definition translate (s : Surface.t) (x : list float) : Surface.t :=
  let dim := Surface.dimension s in
  let f p :=
    let w := if Surface.rational s then nth dim p 1%float else 1%float in
    map (fun i => PrimFloat.add (nth i p 0%float) (PrimFloat.mul (nth i x 0%float) w))
        (seq 0 dim)
    ++ skipn dim p in
  Surface.mk (Surface.bases s)
             (map_points (channels dim (Surface.rational s)) f (Surface.controlpoints s))
             dim (Surface.rational s).

(** Modelled from the spec: [surf += x], a translation. *)
Definition surface_iadd (s : Surface.t) (x : list float) : result Surface.t :=
  Ok (translate s x).

(** Modelled from the spec: [surf -= x], the opposite translation. *)
Definition surface_isub (s : Surface.t) (x : list float) : result Surface.t :=
  Ok (translate s (map PrimFloat.opp x)).

(** Modelled from the spec: the geometric center (of homogeneous position),
    here the mean of the control points, channel by channel. *)
Definition surface_center (s : Surface.t) : result (list float) :=
  let pts := surface_iter s in
  let d := channels (Surface.dimension s) (Surface.rational s) in
  Ok (map (fun c => PrimFloat.div (fsum (map (fun p => nth c p 0%float) pts))
                                  (of_nat (length pts)))
          (seq 0 d)).

Definition float_list_eqb (a b : list float) : bool :=
  (length a =? length b) && forallb (fun p => PrimFloat.eqb (fst p) (snd p)) (combine a b).

Definition basis_eqb (a b : Basis) : bool :=
  (order a =? order b) && float_list_eqb (knots a) (knots b)
  && (periodic a =? periodic b)%Z.

(** Modelled from the spec: refine two surfaces to one spline space; this
    kernel accepts them only when they share it already. *)
Definition surface_make_splines_identical (s1 s2 : Surface.t)
  : result (Surface.t * Surface.t) :=
  if basis_eqb (fst (Surface.bases s1)) (fst (Surface.bases s2))
     && basis_eqb (snd (Surface.bases s1)) (snd (Surface.bases s2))
     && (Surface.dimension s1 =? Surface.dimension s2)
     && Bool.eqb (Surface.rational s1) (Surface.rational s2)
  then Ok (s1, s2)
  else Raise (ValueError "the reference kernel unifies only geometries sharing their bases").

(** *** Volumes *)

Definition rows_of (cp : array_like) : list (list float) :=
  match cp with
  | PyRows r => r
  | NdArray a => np.rows a
  end.

Definition unit_cube : list (list float) :=
  [[0; 0; 0]; [1; 0; 0]; [0; 1; 0]; [1; 1; 0];
   [0; 0; 1]; [1; 0; 1]; [0; 1; 1]; [1; 1; 1]]%float.

Definition basis_or_default (b : option Basis) : result Basis :=
  match b with
  | Some b => Ok b
  | None => BSplineBasis None None None
  end.

(** Modelled from the spec: the constructor of a volume.  It receives the
    control points with the first parametric index running fastest and
    stores them as an [(n1, n2, n3, d)] lattice; without control points it
    builds the unit cube. *)
Definition Volume_init (b1 b2 b3 : option Basis) (cp : option array_like) (rational : bool)
  : result Volume.t :=
  rbind (basis_or_default b1) (fun b1 =>
  rbind (basis_or_default b2) (fun b2 =>
  rbind (basis_or_default b3) (fun b3 =>
    let pts := match cp with Some c => rows_of c | None => unit_cube end in
    let n1 := num_functions b1 in
    let n2 := num_functions b2 in
    let n3 := num_functions b3 in
    let d := length (hd [] pts) in
    if negb (length pts =? n1 * n2 * n3)
    then Raise (ValueError "control points do not match the bases")
    else if negb (forallb (fun p => length p =? d) pts)
    then Raise (ValueError "control points of different lengths")
    else
      Ok (Volume.mk (b1, b2, b3)
                    (np.mk [n1; n2; n3; d]
                           (concat (map (fun q =>
                                           let i := q / (n2 * n3) in
                                           let j := (q / n3) mod n2 in
                                           let k := q mod n3 in
                                           nth (i + n1 * (j + n2 * k)) pts [])
                                        (seq 0 (n1 * n2 * n3)))))
                    (d - (if rational then 1 else 0)) rational)))).

(** Modelled from the spec: extract the eight corner control points, the
    last parametric index running fastest. *)
Definition volume_corners (v : Volume.t) : result np.ndarray :=
  match np.shape (Volume.controlpoints v) with
  | [n1; n2; n3; d] =>
      let pts := np.rows (Volume.controlpoints v) in
      let pick ijk := match ijk with
                      | (i, j, k) => nth ((i * n2 + j) * n3 + k) pts []
                      end in
      Ok (np.mk [8; d]
                (concat (map pick
                             (flat_map (fun i =>
                                flat_map (fun j => map (fun k => (i, j, k)) [0; n3 - 1])
                                         [0; n2 - 1])
                                [0; n1 - 1]))))
  | _ => Raise (ValueError "not a volume lattice")
  end.

Definition swap_list {A : Type} (a b : nat) (d : A) (l : list A) : list A :=
  map (fun i => if i =? a then nth b l d else if i =? b then nth a l d else nth i l d)
      (seq 0 (length l)).

(** Modelled from the spec: swap two parametric axes of a volume. *)
Definition volume_swap (v : Volume.t) (a b : nat) : result Volume.t :=
  if (a <? 3) && (b <? 3) then
    rbind (np.transpose (Volume.controlpoints v) (swap_list a b 0 [0; 1; 2; 3])) (fun c =>
      match Volume.bases v with
      | (b1, b2, b3) =>
          match swap_list a b b1 [b1; b2; b3] with
          | [c1; c2; c3] => Ok (Volume.mk (c1, c2, c3) c (Volume.dimension v) (Volume.rational v))
          | _ => Raise (SystemError "three bases expected")
          end
      end)
  else Raise (ValueError "no such parametric direction").

(** Modelled from the spec: refine two volumes to one spline space; this
    kernel accepts them only when they share it already. *)
Definition volume_make_splines_identical (v1 v2 : Volume.t) : result (Volume.t * Volume.t) :=
  match Volume.bases v1, Volume.bases v2 with
  | (a1, a2, a3), (b1, b2, b3) =>
      if basis_eqb a1 b1 && basis_eqb a2 b2 && basis_eqb a3 b3
         && (Volume.dimension v1 =? Volume.dimension v2)
         && Bool.eqb (Volume.rational v1) (Volume.rational v2)
      then Ok (v1, v2)
      else Raise (ValueError "the reference kernel unifies only geometries sharing their bases")
  end.

(** *** The surface factory *)

(** Modelled from the spec: the shell of a cylinder from the surface
    factory, a rational quadratic circle of radius [r] in eight control
    points, at heights 0 and [h]. *)
Definition SurfaceFactory_cylinder (r h : float) : result Surface.t :=
  let w := PrimFloat.div 1%float (sqrt 2%float) in
  let m := PrimFloat.opp r in
  let circle := [(r, 0, 1); (r, r, w); (0, r, 1); (m, r, w);
                 (m, 0, 1); (m, m, w); (0, m, 1); (r, m, w)]%float in
  let point z xyw :=
    match xyw with
    | (x, y, wt) => [PrimFloat.mul x wt; PrimFloat.mul y wt; PrimFloat.mul z wt; wt]
    end in
  rbind (BSplineBasis (Some 3) (Some [-1; 0; 0; 1; 1; 2; 2; 3; 3; 4; 4; 5]%float) (Some 0%Z))
        (fun b => rbind (basis_imul b (2 * pi / 4)%float) (fun b1 =>
         rbind (BSplineBasis None None None) (fun b2 =>
           Ok (Surface.mk (b1, b2)
                          (np.mk [8; 2; 4]
                                 (concat (flat_map (fun c => [point 0%float c; point h c]) circle)))
                          3 true)))).

(** Modelled from the spec: the surface factory's builder of a ruled surface
    between two curves.  It unpacks the lattice shape of its first argument
    into a number of control points and a channel count, which fails on
    the three-axis lattice of a surface. *)
Definition SurfaceFactory_edge_curves (curves : list Surface.t) : result Surface.t :=
  Raise (ValueError "too many values to unpack (expected 2)").

(** *** numpy.linalg and tensordot *)

(** Modelled from the spec: [numpy.linalg.norm] of a vector. *)
Definition np_linalg_norm (x : list float) : float :=
  sqrt (fold_left (fun acc c => PrimFloat.add acc (PrimFloat.mul c c)) x 0%float).

Fixpoint remove_nth {A : Type} (i : nat) (l : list A) : list A :=
  match l, i with
  | [], _ => []
  | _ :: l', 0 => l'
  | x :: l', S i' => x :: remove_nth i' l'
  end.

Definition insert_nth {A : Type} (i : nat) (x : A) (l : list A) : list A :=
  firstn i l ++ x :: skipn i l.

(** Modelled from the spec: [numpy.tensordot(a, b, axes=(i, j))], the
    contraction of axis [i] of [a] with axis [j] of [b]. *)
Definition np_tensordot (a b : np.ndarray) (i j : nat) : result np.ndarray :=
  let m := nth i (np.shape a) 0 in
  if (i <? length (np.shape a)) && (j <? length (np.shape b)) && (m =? nth j (np.shape b) 0)
  then
    let sa := remove_nth i (np.shape a) in
    let sb := remove_nth j (np.shape b) in
    let entry q :=
      let idx := np.unravel (sa ++ sb) q in
      let ia := firstn (length sa) idx in
      let ib := skipn (length sa) idx in
      fold_left (fun acc t =>
                   PrimFloat.add acc
                     (PrimFloat.mul
                        (nth (np.ravel (np.shape a) (insert_nth i t ia)) (np.data a) 0%float)
                        (nth (np.ravel (np.shape b) (insert_nth j t ib)) (np.data b) 0%float)))
                (seq 0 m) 0%float in
    Ok (np.mk (sa ++ sb) (map entry (seq 0 (np.size (sa ++ sb)))))
  else Raise (ValueError "shape-mismatch for sum").

Definition pivot_row (c : nat) (rows : list (list float)) : nat :=
  fold_left (fun best i =>
               if PrimFloat.ltb (PrimFloat.abs (nth c (nth best rows []) 0%float))
                                (PrimFloat.abs (nth c (nth i rows []) 0%float))
               then i else best)
            (seq c (length rows - c)) c.

Definition eliminate (c : nat) (rows : list (list float)) : result (list (list float)) :=
  let piv := pivot_row c rows in
  let pv := nth c (nth piv rows []) 0%float in
  if PrimFloat.eqb pv 0%float then Raise (LinAlgError "Singular matrix")
  else
    let rows1 := swap_list c piv [] rows in
    let prow := map (fun x => PrimFloat.div x pv) (nth c rows1 []) in
    Ok (map (fun ir =>
               if fst ir =? c then prow
               else let f := nth c (snd ir) 0%float in
                    np.zip_with (fun x y => PrimFloat.sub x (PrimFloat.mul f y)) (snd ir) prow)
            (combine (seq 0 (length rows1)) rows1)).

(** Modelled from the spec: [numpy.linalg.inv], by Gauss-Jordan elimination
    with partial pivoting on [[A | I]]; a matrix that is not square or is
    singular is refused. *)
Definition np_linalg_inv (a : np.ndarray) : result np.ndarray :=
  match np.shape a with
  | [n; m] =>
      if n =? m then
        let unit i := map (fun j => if i =? j then 1%float else 0%float) (seq 0 n) in
        let aug := map (fun ir => snd ir ++ unit (fst ir)) (combine (seq 0 n) (np.rows a)) in
        rbind (fold_left (fun st c => rbind st (eliminate c)) (seq 0 n) (Ok aug))
              (fun rows => Ok (np.mk [n; n] (concat (map (skipn n) rows))))
      else Raise (LinAlgError "Last 2 dimensions of the array must be square")
  | _ => Raise (LinAlgError "Last 2 dimensions of the array must be square")
  end.

Definition kernel : Kernel :=
  Build_Kernel
    BSplineBasis basis_imul basis_greville (fun b => Ok (num_functions b)) basis_evaluate
    surface_set_dimension surface_force_rational surface_len surface_getitem surface_iter
    surface_rotate surface_iadd surface_isub surface_center surface_make_splines_identical
    Volume_init volume_corners volume_swap volume_make_splines_identical
    SurfaceFactory_cylinder SurfaceFactory_edge_curves
    np_linalg_norm np_linalg_inv np_tensordot.

End RefKernel.

(** ** Concrete inputs *)
Module Sample.

Definition K0 : Kernel := RefKernel.kernel.

(** The linear basis on [0, 1]. *)
Definition lin : Basis := mkBasis 2 [0; 0; 1; 1]%float (-1).

Definition pt (x y z : float) : list float := [x; y; z].

(** A bilinear surface in space through four points. *)
Definition face (p00 p01 p10 p11 : list float) : Surface.t :=
  Surface.mk (lin, lin) (np.mk [2; 2; 3] (p00 ++ p01 ++ p10 ++ p11)) 3 false.

(** The six faces of the unit cube, in the order [edge_surfaces] wants
    them: u = 0, u = 1 (over v and w), v = 0, v = 1 (over u and w),
    w = 0, w = 1 (over u and v). *)
Definition umin := face (pt 0 0 0) (pt 0 0 1) (pt 0 1 0) (pt 0 1 1).
Definition umax := face (pt 1 0 0) (pt 1 0 1) (pt 1 1 0) (pt 1 1 1).
Definition vmin := face (pt 0 0 0) (pt 0 0 1) (pt 1 0 0) (pt 1 0 1).
Definition vmax := face (pt 0 1 0) (pt 0 1 1) (pt 1 1 0) (pt 1 1 1).
Definition wmin := face (pt 0 0 0) (pt 0 1 0) (pt 1 0 0) (pt 1 1 0).
Definition wmax := face (pt 0 0 1) (pt 0 1 1) (pt 1 0 1) (pt 1 1 1).

Definition cube_faces : heap := [umin; umax; vmin; vmax; wmin; wmax].

(** The unit square at height [z]. *)
Definition section (z : float) : Surface.t :=
  face (pt 0 0 z) (pt 0 1 z) (pt 1 0 z) (pt 1 1 z).

Definition sections : heap := [section 0; section 1; section 2; section 3].

(** A planar (two-dimensional) bilinear patch. *)
Definition patch : Surface.t :=
  Surface.mk (lin, lin) (np.mk [2; 2; 2] [1; 0; 1; 1; 2; 0; 2; 1]%float) 2 false.

(** A rational patch in space whose four control points carry the
    weight 2. *)
Definition heavy : Surface.t :=
  Surface.mk (lin, lin)
             (np.mk [2; 2; 4] [1; 0; 1; 2; 1; 1; 1; 2; 2; 0; 1; 2; 2; 1; 1; 2]%float) 3 true.

(** The weight channel of the control points of a lattice. *)
Definition weights (a : np.ndarray) : list float :=
  map (fun p => nth 3 p 0%float) (np.rows a).

(** The third basis of a revolved volume in the reference kernel: the
    periodic quadratic basis over the four quadrants of the full turn. *)
Definition full_turn : Basis :=
  mkBasis 3
          [-0x1.921fb54442d18p+0; 0; 0; 0x1.921fb54442d18p+0; 0x1.921fb54442d18p+0;
           0x1.921fb54442d18p+1; 0x1.921fb54442d18p+1;
           0x1.2d97c7f3321d2p+2; 0x1.2d97c7f3321d2p+2;
           0x1.921fb54442d18p+2; 0x1.921fb54442d18p+2;
           0x1.f6a7a2955385ep+2]%float
          0.

(** A planar patch with 3 x 2 = 6 control points (quadratic by linear). *)
Definition strip : Surface.t :=
  Surface.mk (mkBasis 3 [0; 0; 0; 1; 1; 1]%float (-1), lin)
             (np.mk [3; 2; 2] [0; 0; 0; 1; 1; 0; 1; 1; 2; 0; 2; 1]%float) 2 false.


(** The profile of [revolve] on [s], promoted and turned [i] times by an
    eighth of a turn. *)
Definition unwrap (r : result Surface.t) (d : Surface.t) : Surface.t :=
  match r with
  | Ok s => s
  | Raise _ => d
  end.

Definition promoted (s : Surface.t) : Surface.t :=
  unwrap (rbind (RefKernel.surface_set_dimension s 3) RefKernel.surface_force_rational) s.

Fixpoint turned (s : Surface.t) (i : nat) : Surface.t :=
  match i with
  | 0 => promoted s
  | S i' => unwrap (RefKernel.surface_rotate (turned s i') (pi / 4)%float) s
  end.

(** A section whose height is lost when a large depth is added and taken
    away again. *)
Definition low_section : Surface.t := section 0.5%float.
Definition far : float := 0x1p+60%float.


Definition unit_cube_volume : Volume.t :=
  Volume.mk (lin, lin, lin)
            (np.mk [2; 2; 2; 3]
                   (pt 0 0 0 ++ pt 0 0 1 ++ pt 0 1 0 ++ pt 0 1 1
                    ++ pt 1 0 0 ++ pt 1 0 1 ++ pt 1 1 0 ++ pt 1 1 1))
            3 false.

End Sample.

(** ** Further readings of the store

    [writes_only l m]: whether it returns or raises, [m] adds no object to
    the store and leaves every object other than the one behind [l] as it
    is. *)
Definition writes_only {A : Type} (l : loc) (m : M A) : Prop :=
  forall h,
    length (snd (m h)) = length h
    /\ (forall l', l' <> l -> nth_error (snd (m h)) l' = nth_error h l').

(** [on_last m]: handed the reference to the last object of the store, [m]
    works on that object only; its outcome and the object it leaves there
    are the same whatever the objects before it. *)
Definition on_last {A : Type} (m : loc -> M A) : Prop :=
  forall s, exists r s', forall h, m (length h) (h ++ [s]) = (r, h ++ [s']).

(** [grows_by n m]: whether it returns or raises, [m] removes no object from
    the store and adds at most [n]. *)
Definition grows_by {A : Type} (n : nat) (m : M A) : Prop :=
  forall h, length h <= length (snd (m h)) /\ length (snd (m h)) <= length h + n.

(** Whether a Python value is a collection (a list or tuple of items). *)
Definition is_collection (v : pyval) : bool :=
  match v with
  | PyList _ => true
  | _ => false
  end.


(** * Properties *)

Unset Implicit Arguments.

(** ** Buffers cut into blocks *)

Section Blocks.

Context {A : Type}.

Lemma blocks_concat (c s : nat) (d : list A) :
  length d = s * c ->
  concat (map (fun i => firstn c (skipn (i * c) d)) (seq 0 s)) = d.
Proof.
  revert d. induction s as [|s IH]; intros d Hlen.
  - destruct d; [reflexivity | discriminate].
  - cbn [seq map concat]. rewrite <- seq_shift, map_map.
    rewrite (map_ext _ (fun i => firstn c (skipn (i * c) (skipn c d)))).
    + rewrite IH.
      * apply firstn_skipn.
      * rewrite length_skipn. lia.
    + intros i. rewrite skipn_skipn. do 2 f_equal. lia.
Qed.

Lemma chunks_count (c s : nat) (d : list A) :
  0 < c -> length d = s * c -> length d / c = s.
Proof. intros Hc ->. apply Nat.div_mul. lia. Qed.

Lemma concat_chunks (c s : nat) (d : list A) :
  0 < c -> length d = s * c -> concat (np.chunks c d) = d.
Proof.
  intros Hc Hlen. unfold np.chunks. rewrite (chunks_count c s d Hc Hlen).
  now apply blocks_concat.
Qed.

Lemma length_concat_const (c : nat) (rows : list (list A)) :
  Forall (fun r => length r = c) rows -> length (concat rows) = length rows * c.
Proof.
  induction 1 as [|r rows Hr _ IH]; [reflexivity|].
  cbn. rewrite length_app, IH, Hr. reflexivity.
Qed.

Lemma chunks_of_concat (c : nat) (rows : list (list A)) :
  0 < c -> Forall (fun r => length r = c) rows -> np.chunks c (concat rows) = rows.
Proof.
  intros Hc Hrows. unfold np.chunks.
  rewrite (length_concat_const c rows Hrows), Nat.div_mul by lia.
  induction Hrows as [|r rows Hr Hrows IH]; [reflexivity|].
  cbn [length seq map concat]. f_equal.
  - change (0 * c) with 0. cbn [skipn].
    rewrite firstn_app, Hr, Nat.sub_diag, firstn_O, app_nil_r.
    apply firstn_all2. lia.
  - rewrite <- seq_shift, map_map. rewrite <- IH at 2.
    apply map_ext. intros i.
    replace (S i * c) with (length r + i * c) by lia.
    rewrite skipn_app, Nat.add_comm, Nat.add_sub.
    rewrite (skipn_all2 r) by lia. reflexivity.
Qed.

Lemma chunks_rows_length (c s : nat) (d : list A) :
  length d = s * c -> Forall (fun r => length r = c) (np.chunks c d).
Proof.
  intros Hlen. unfold np.chunks. apply Forall_forall. intros r Hin.
  apply in_map_iff in Hin as (i & <- & Hi). apply in_seq in Hi.
  destruct c as [|c]; [reflexivity|].
  rewrite Hlen, Nat.div_mul in Hi by lia.
  rewrite length_firstn, length_skipn. nia.
Qed.

Lemma update_at_length (j : nat) (f : A -> A) (l : list A) :
  length (np.update_at j f l) = length l.
Proof.
  revert j. induction l as [|x l IH]; intros [|j]; cbn; auto.
Qed.

End Blocks.

(** ** numpy operations on well-shaped operands *)

Lemma fold_blocks_some {A : Type} (g : nat -> list A) (l : list nat) (F : nat -> option (list A)) :
  (forall i, In i l -> F i = Some (g i)) ->
  fold_right (fun i acc => match F i, acc with
                           | Some r, Some rs => Some (r ++ rs)
                           | _, _ => None
                           end) (Some []) l
  = Some (concat (map g l)).
Proof.
  induction l as [|i l IH]; intros HF; [reflexivity|].
  cbn [fold_right map concat]. rewrite IH by (intros; apply HF; now right).
  rewrite HF by now left. reflexivity.
Qed.

Lemma broadcast_same (sh : list nat) (d : list float) :
  length d = np.size sh -> np.broadcast sh sh d = Some d.
Proof.
  revert d. induction sh as [|t sh IH]; intros d Hlen; [reflexivity|].
  cbn [np.broadcast]. 
  replace (length (t :: sh) <=? length sh) with false
    by (symmetry; apply Nat.leb_gt; cbn; lia).
  rewrite Nat.eqb_refl.
  rewrite (fold_blocks_some (fun i => firstn (np.size sh) (skipn (i * np.size sh) d))).
  - f_equal. apply blocks_concat. exact Hlen.
  - intros i Hi. apply in_seq in Hi. apply IH.
    rewrite length_firstn, length_skipn. cbn [np.size fold_right] in Hlen.
    fold (np.size sh) in Hlen. nia.
Qed.

Lemma assign_to_same (b : np.ndarray) (sh : list nat) :
  np.shape b = sh -> length (np.data b) = np.size sh ->
  np.assign_to b sh = Ok (np.mk sh (np.data b)).
Proof.
  intros Hsh Hlen. unfold np.assign_to, np.broadcast_to. rewrite Hsh, Nat.sub_diag.
  cbn [np.strip_ones np.shape np.data]. now rewrite broadcast_same.
Qed.

Lemma broadcast_to_same (b : np.ndarray) (sh : list nat) :
  np.shape b = sh -> length (np.data b) = np.size sh ->
  np.broadcast_to b sh = Ok (np.mk sh (np.data b)).
Proof.
  intros Hsh Hlen. unfold np.broadcast_to. rewrite Hsh. now rewrite broadcast_same.
Qed.

Lemma size_2 (n c : nat) : np.size [n; c] = n * c.
Proof. cbn. lia. Qed.

Lemma set_rows_ok (a b : np.ndarray) (N c lo hi : nat) :
  np.shape a = [N; c] -> lo <= hi -> hi <= N ->
  np.shape b = [hi - lo; c] -> length (np.data b) = (hi - lo) * c ->
  np.set_rows a lo hi b
  = Ok (np.mk [N; c] (np.splice (lo * c) (hi * c) (fun _ => np.data b) (np.data a))).
Proof.
  intros Ha Hlo Hhi Hb Hlen. unfold np.set_rows, np.clamp. rewrite Ha.
  replace (Nat.min lo N) with lo by lia.
  replace (Nat.max lo (Nat.min hi N)) with hi by lia.
  rewrite assign_to_same by (rewrite ?size_2; assumption).
  reflexivity.
Qed.

Lemma imul_col_ok (a : np.ndarray) (N c lo hi j : nat) (w : float) :
  np.shape a = [N; c] -> lo <= hi -> hi <= N -> j < c ->
  np.imul_col a lo hi j w
  = Ok (np.mk [N; c]
              (np.splice (lo * c) (hi * c)
                         (fun blk => concat (map (np.update_at j (fun x => PrimFloat.mul x w))
                                                 (np.chunks c blk)))
                         (np.data a))).
Proof.
  intros Ha Hlo Hhi Hj. unfold np.imul_col, np.clamp. rewrite Ha.
  replace (j <? c) with true by (symmetry; now apply Nat.ltb_lt).
  replace (Nat.min lo N) with lo by lia.
  replace (Nat.max lo (Nat.min hi N)) with hi by lia.
  reflexivity.
Qed.

Lemma splice_app {A : Type} (lo hi : nat) (f : list A -> list A) (pre mid post : list A) :
  length pre = lo -> length mid = hi - lo -> lo <= hi ->
  np.splice lo hi f (pre ++ mid ++ post) = pre ++ f mid ++ post.
Proof.
  intros Hpre Hmid Hle. unfold np.splice. f_equal; [|f_equal; [f_equal|]].
  - rewrite firstn_app, Hpre, Nat.sub_diag, firstn_O, app_nil_r.
    apply firstn_all2. lia.
  - rewrite skipn_app, Hpre, Nat.sub_diag, skipn_O, skipn_all2, app_nil_l by lia.
    rewrite firstn_app, Hmid, Nat.sub_diag, firstn_O, app_nil_r.
    apply firstn_all2. lia.
  - rewrite skipn_app, skipn_all2, app_nil_l by lia.
    rewrite skipn_app, skipn_all2, app_nil_l by lia.
    replace (hi - length pre - length mid) with 0 by lia. reflexivity.
Qed.

Lemma transpose_wf (a t : np.ndarray) (axes : list nat) :
  np.transpose a axes = Ok t -> np.wf t.
Proof.
  unfold np.transpose, np.wf. destruct (np.is_perm _ _); [|discriminate].
  intros [= <-]. cbn [np.data np.shape]. now rewrite length_map, length_seq.
Qed.

Lemma transpose_102_ok (a : np.ndarray) (n1 n2 d : nat) :
  np.shape a = [n1; n2; d] ->
  exists t, np.transpose a [1; 0; 2] = Ok t /\ np.shape t = [n2; n1; d] /\ np.wf t.
Proof.
  intros Ha. unfold np.transpose. rewrite Ha. cbn [length np.is_perm].
  eexists. split; [reflexivity|]. split; [reflexivity|].
  unfold np.wf. cbn [np.data np.shape]. now rewrite length_map, length_seq.
Qed.

(** ** Transposing a surface lattice *)

Lemma map_seq_shift {B : Type} (f : nat -> B) (off d : nat) :
  map f (seq off d) = map (fun c => f (off + c)) (seq 0 d).
Proof.
  revert off. induction d as [|d IH]; intros off; [reflexivity|].
  cbn [seq map]. rewrite Nat.add_0_r. f_equal.
  rewrite IH, <- seq_shift, map_map. apply map_ext. intros c. f_equal. lia.
Qed.

Lemma map_seq_mul {B : Type} (f : nat -> B) (m d : nat) :
  map f (seq 0 (m * d))
  = concat (map (fun r => map (fun c => f (r * d + c)) (seq 0 d)) (seq 0 m)).
Proof.
  revert f. induction m as [|m IH]; intros f; [reflexivity|].
  cbn [Nat.mul]. rewrite seq_app, map_app. cbn [seq map concat Nat.add]. f_equal.
  rewrite map_seq_shift, IH, <- seq_shift, map_map. f_equal. apply map_ext. intros r.
  apply map_ext. intros c. f_equal. lia.
Qed.

Lemma transpose_102_reshape (a : np.ndarray) (n1 n2 d : nat) :
  np.shape a = [n1; n2; d] -> 0 < d ->
  rbind (np.transpose a [1; 0; 2]) (fun t => np.reshape t [n1 * n2; d])
  = Ok (np.mk [n1 * n2; d] (concat (lattice_points a))).
Proof.
  intros Ha Hd. unfold np.transpose. rewrite Ha. cbn [length].
  change (np.is_perm [1; 0; 2] 3) with true. cbn iota. cbn [rbind map nth].
  unfold np.reshape. cbn [np.shape np.data].
  replace (np.size [n1 * n2; d] =? np.size [n2; n1; d]) with true
    by (symmetry; apply Nat.eqb_eq; cbn; lia).
  do 2 f_equal. unfold lattice_points. rewrite Ha.
  replace (np.size [n2; n1; d]) with (n1 * n2 * d) by (cbn; lia).
  rewrite map_seq_mul. f_equal. apply map_ext_in. intros r Hr. apply in_seq in Hr.
  unfold lattice_point. rewrite Ha. apply map_ext_in. intros c Hc. apply in_seq in Hc.
  f_equal. cbn [np.unravel np.ravel np.size fold_right nth np.index_of Nat.eqb map seq].
  rewrite !Nat.mul_1_r, Nat.div_1_r, Nat.add_0_r.
  assert (Hn1 : 0 < n1) by nia.
  pose proof (Nat.div_mod_eq r n1) as Hdm.
  pose proof (Nat.mod_upper_bound r n1 ltac:(lia)) as Hm.
  set (q := r / n1) in *. set (m := r mod n1) in *.
  assert (H1 : (r * d + c) / (n1 * d) = q).
  { symmetry. apply (Nat.div_unique _ _ _ (m * d + c)); nia. }
  assert (H2 : (r * d + c) mod (n1 * d) = m * d + c).
  { symmetry. apply (Nat.mod_unique _ _ q); nia. }
  rewrite H1, H2.
  assert (H3 : (m * d + c) / d = m).
  { symmetry. apply (Nat.div_unique _ _ _ c); nia. }
  assert (H4 : (m * d + c) mod d = c).
  { symmetry. apply (Nat.mod_unique _ _ m); nia. }
  rewrite H3, H4. nia.
Qed.

(** ** Running factory code *)

Lemma bind_run {A B : Type} (m : M A) (k : A -> M B) (h h1 : heap) (a : A) :
  m h = (Ok a, h1) -> bind m k h = k a h1.
Proof. intros H. unfold bind. now rewrite H. Qed.

Lemma bind_raise {A B : Type} (m : M A) (k : A -> M B) (h h1 : heap) (e : exn) :
  m h = (Raise e, h1) -> bind m k h = (Raise e, h1).
Proof. intros H. unfold bind. now rewrite H. Qed.

Lemma bind_lift_ok {A B : Type} (a : A) (k : A -> M B) (h : heap) :
  bind (lift (Ok a)) k h = k a h.
Proof. reflexivity. Qed.

Lemma bind_assoc {A B C : Type} (m : M A) (k1 : A -> M B) (k2 : B -> M C) (h : heap) :
  bind (bind m k1) k2 h = bind m (fun a => bind (k1 a) k2) h.
Proof. unfold bind. destruct (m h) as [[a|e] h']; reflexivity. Qed.

Lemma bind_ret {A B : Type} (a : A) (k : A -> M B) (h : heap) :
  bind (ret a) k h = k a h.
Proof. reflexivity. Qed.

(** Push through the steps that cannot fail. *)
Ltac mrun := repeat (rewrite bind_assoc || rewrite bind_lift_ok || rewrite bind_ret).

Lemma nth_error_last {A : Type} (h : list A) (x : A) :
  nth_error (h ++ [x]) (length h) = Some x.
Proof. rewrite nth_error_app2, Nat.sub_diag by lia. reflexivity. Qed.

Lemma replace_nth_last {A : Type} (h : list A) (x y : A) :
  replace_nth (length h) y (h ++ [x]) = h ++ [y].
Proof. induction h as [|z h IH]; cbn; [reflexivity | now rewrite IH]. Qed.

Lemma deref_run (l : loc) (h : heap) (s : Surface.t) :
  nth_error h l = Some s -> deref l h = (Ok s, h).
Proof. intros H. unfold deref. now rewrite H. Qed.

Lemma deref_last (h : heap) (s : Surface.t) :
  deref (length h) (h ++ [s]) = (Ok s, h ++ [s]).
Proof. apply deref_run, nth_error_last. Qed.

Lemma clone_run (l : loc) (h : heap) (s : Surface.t) :
  nth_error h l = Some s -> clone l h = (Ok (length h), h ++ [s]).
Proof. intros H. unfold clone. now rewrite (bind_run _ _ _ _ _ (deref_run _ _ _ H)). Qed.

Lemma call_last (f : Surface.t -> result Surface.t) (h : heap) (s s' : Surface.t) :
  f s = Ok s' -> call f (length h) (h ++ [s]) = (Ok tt, h ++ [s']).
Proof.
  intros H. unfold call. rewrite (bind_run _ _ _ _ _ (deref_last _ _)).
  unfold lift, bind, store. now rewrite H, replace_nth_last.
Qed.

(** ** revolve *)

Lemma even_mod2 (i : nat) : (i mod 2 =? 0) = Nat.even i.
Proof.
  destruct (Nat.even i) eqn:E.
  - apply Nat.even_spec in E. destruct E as [k ->].
    now rewrite Nat.mul_comm, Nat.Div0.mod_mul.
  - assert (Ho : Nat.odd i = true) by (unfold Nat.odd; now rewrite E).
    apply Nat.odd_spec in Ho. destruct Ho as [k ->].
    rewrite Nat.add_comm, Nat.mul_comm, Nat.Div0.mod_add. reflexivity.
Qed.

Lemma lattice_points_length (a : np.ndarray) (n1 n2 d : nat) :
  np.shape a = [n1; n2; d] ->
  length (lattice_points a) = n1 * n2
  /\ Forall (fun p => length p = d) (lattice_points a).
Proof.
  intros Ha. unfold lattice_points. rewrite Ha. split.
  - now rewrite length_map, length_seq.
  - apply Forall_forall. intros p Hp. apply in_map_iff in Hp as (r & <- & _).
    unfold lattice_point. rewrite Ha. now rewrite length_map, length_seq.
Qed.

Lemma update_rows_length (j c : nat) (f : float -> float) (pts : list (list float)) :
  Forall (fun p => length p = c) pts ->
  Forall (fun p => length p = c) (map (np.update_at j f) pts).
Proof.
  intros Hpts. apply Forall_forall. intros p Hp. apply in_map_iff in Hp as (p0 & <- & Hp0).
  rewrite update_at_length. revert p0 Hp0. now apply Forall_forall.
Qed.

Section Revolve.

Context {K : Kernel}.

Lemma revolve_station_run (h : heap) (q q' : Surface.t) (n1 n2 i : nat) (pre : list float) :
  np.shape (Surface.controlpoints q) = [n1; n2; 4] ->
  surface_rotate q (pi / 4)%float = Ok q' ->
  i < 8 ->
  length pre = i * (n1 * n2) * 4 ->
  revolve_station (length h) (n1 * n2)
                  (np.mk [8 * (n1 * n2); 4] (pre ++ repeat 0%float ((8 - i) * (n1 * n2) * 4)))
                  i (h ++ [q])
  = (Ok (np.mk [8 * (n1 * n2); 4]
               ((pre ++ concat (station i q))
                ++ repeat 0%float ((8 - S i) * (n1 * n2) * 4))),
     h ++ [q']).
Proof.
  intros Hq Hrot Hi Hpre. unfold revolve_station.
  destruct (lattice_points_length _ _ _ _ Hq) as [Hlen Hrows].
  pose proof (length_concat_const 4 _ Hrows) as Hcat. rewrite Hlen in Hcat.
  rewrite (bind_run _ _ _ _ _ (deref_last _ _)).
  pose proof (transpose_102_reshape _ _ _ _ Hq ltac:(nia)) as Htr.
  destruct (np.transpose (Surface.controlpoints q) [1; 0; 2]) as [t|e]; [|discriminate].
  cbn [rbind] in Htr. unfold lift at 1. unfold bind at 1. unfold lift at 1. unfold bind at 1.
  rewrite Htr.
  set (n := n1 * n2) in *.
  replace ((8 - i) * n * 4) with (n * 4 + (8 - S i) * n * 4) by nia.
  rewrite repeat_app.
  assert (Hz : length (repeat 0%float (n * 4)) = (i + 1) * n * 4 - i * n * 4)
    by (rewrite repeat_length; nia).
  rewrite (set_rows_ok _ _ (8 * n) 4 (i * n) ((i + 1) * n));
    [| reflexivity | nia | nia | cbn [np.shape]; f_equal; nia | cbn [np.data]; nia ].
  cbn [np.data]. rewrite splice_app by (assumption || nia).
  unfold lift at 1. unfold bind at 1.
  rewrite (imul_col_ok _ (8 * n) 4 (i * n) ((i + 1) * n) 2) by (reflexivity || nia).
  cbn [np.data]. rewrite splice_app by (assumption || nia).
  rewrite (chunks_of_concat 4) by (assumption || nia).
  pose proof (update_rows_length 2 4 (fun x => PrimFloat.mul x (if i mod 2 =? 0 then 1%float else (1 / sqrt 2)%float)) _ Hrows) as Hrows2.
  pose proof (length_concat_const 4 _ Hrows2) as Hcat2. rewrite length_map, Hlen in Hcat2.
  unfold lift at 1. unfold bind at 1.
  rewrite (imul_col_ok _ (8 * n) 4 (i * n) ((i + 1) * n) 3) by (reflexivity || nia).
  cbn [np.data]. rewrite splice_app by (assumption || nia).
  rewrite (chunks_of_concat 4) by (assumption || nia).
  rewrite map_map, bind_lift_ok.
  rewrite (bind_run _ _ _ _ _ (call_last (fun s => surface_rotate s (pi / 4)%float) _ _ _ Hrot)).
  unfold ret, station, station_weight, scale_zw. rewrite even_mod2, <- app_assoc. reflexivity.
Qed.

Lemma stations_S (p : nat -> Surface.t) (k : nat) :
  stations p (S k) = stations p k ++ station k (p k).
Proof.
  unfold stations. rewrite seq_S, map_app, concat_app. cbn [map concat Nat.add].
  now rewrite app_nil_r.
Qed.

Lemma stations_rows (p : nat -> Surface.t) (n1 n2 k : nat) :
  (forall j, j < k -> np.shape (Surface.controlpoints (p j)) = [n1; n2; 4]) ->
  length (stations p k) = k * (n1 * n2)
  /\ Forall (fun pt => length pt = 4) (stations p k).
Proof.
  induction k as [|k IH]; intros Hsh; [split; [reflexivity | constructor]|].
  destruct IH as [IHl IHr]; [intros; apply Hsh; lia|].
  destruct (lattice_points_length _ _ _ _ (Hsh k ltac:(lia))) as [Hl Hr].
  rewrite stations_S. split.
  - rewrite length_app, IHl. unfold station. rewrite length_map, Hl. lia.
  - apply Forall_app. split; [assumption|].
    unfold station, scale_zw. rewrite <- map_map. now do 2 apply update_rows_length.
Qed.

Lemma revolve_loop_run (h : heap) (p : nat -> Surface.t) (n1 n2 k i : nat) :
  i + k = 8 ->
  (forall j, j < 8 -> np.shape (Surface.controlpoints (p j)) = [n1; n2; 4]) ->
  (forall j, j < 8 -> surface_rotate (p j) (pi / 4)%float = Ok (p (S j))) ->
  for_each (seq i k) (revolve_station (length h) (n1 * n2))
           (np.mk [8 * (n1 * n2); 4]
                  (concat (stations p i) ++ repeat 0%float ((8 - i) * (n1 * n2) * 4)))
           (h ++ [p i])
  = (Ok (revolve_lattice p (n1 * n2)), h ++ [p 8]).
Proof.
  intros Hik Hsh Hrot. revert i Hik. induction k as [|k IH]; intros i Hik.
  - replace i with 8 by lia. cbn [seq for_each]. unfold ret, revolve_lattice.
    cbn [Nat.sub Nat.mul repeat]. now rewrite app_nil_r.
  - cbn [seq for_each].
    destruct (stations_rows p n1 n2 i) as [Hl Hr]; [intros; apply Hsh; lia|].
    pose proof (length_concat_const 4 _ Hr) as Hcat. rewrite Hl in Hcat.
    rewrite (bind_run _ _ _ _ _
               (revolve_station_run h (p i) (p (S i)) n1 n2 i _
                  (Hsh i ltac:(lia)) (Hrot i ltac:(lia)) ltac:(lia) Hcat)).
    rewrite <- concat_app, <- stations_S. apply IH. lia.
Qed.

End Revolve.

Section RevolveTheorems.

Context {K : Kernel}.

Lemma stations_block (p : nat -> Surface.t) (n1 n2 k i : nat) :
  (forall j, j < k -> np.shape (Surface.controlpoints (p j)) = [n1; n2; 4]) ->
  i < k ->
  firstn (n1 * n2) (skipn (i * (n1 * n2)) (stations p k)) = station i (p i).
Proof.
  induction k as [|k IH]; intros Hsh Hi; [lia|].
  destruct (stations_rows p n1 n2 k) as [Hl _]; [intros; apply Hsh; lia|].
  destruct (lattice_points_length _ _ _ _ (Hsh k ltac:(lia))) as [Hk _].
  rewrite stations_S, skipn_app, firstn_app, length_skipn, Hl.
  destruct (Nat.eq_dec i k) as [->|Hne].
  - rewrite skipn_all2, Nat.sub_diag by lia. rewrite firstn_nil.
    cbn [skipn length app Nat.sub].
    rewrite Nat.sub_0_r. apply firstn_all2. unfold station. rewrite length_map. lia.
  - replace (n1 * n2 - (k * (n1 * n2) - i * (n1 * n2))) with 0 by nia.
    rewrite firstn_O, app_nil_r. apply IH; [intros; apply Hsh|]; lia.
Qed.

Lemma revolve_run
    (surf : loc) (theta : float) (h : heap) (s0 s1 : Surface.t) (p : nat -> Surface.t)
    (n1 n2 : nat) (b0 b : Basis) (v : Volume.t) :
  nth_error h surf = Some s0 ->
  surface_set_dimension s0 3 = Ok s1 ->
  surface_force_rational s1 = Ok (p 0) ->
  (forall j, j < 8 -> surface_rotate (p j) (pi / 4)%float = Ok (p (S j))) ->
  (forall j, j < 8 -> np.shape (Surface.controlpoints (p j)) = [n1; n2; 4]) ->
  surface_len (p 0) = n1 * n2 ->
  BSplineBasis (Some 3) (Some [-1; 0; 0; 1; 1; 2; 2; 3; 3; 4; 4; 5]%float) (Some 0%Z) = Ok b0 ->
  basis_imul b0 (2 * pi / 4)%float = Ok b ->
  Volume_init (Some (fst (Surface.bases (p 8)))) (Some (snd (Surface.bases (p 8)))) (Some b)
              (Some (NdArray (revolve_lattice p (n1 * n2)))) true = Ok v ->
  revolve surf theta h = (Ok v, h ++ [p 8]).
Proof.
  intros Hs0 Hdim Hrat Hrot Hsh Hlen Hb0 Hb Hv.
  unfold revolve.
  rewrite (bind_run _ _ _ _ _ (clone_run _ _ _ Hs0)).
  rewrite (bind_run _ _ _ _ _ (call_last (fun s => surface_set_dimension s 3) _ _ _ Hdim)).
  rewrite (bind_run _ _ _ _ _ (call_last _ _ _ _ Hrat)).
  rewrite (bind_run _ _ _ _ _ (deref_last _ _)).
  rewrite Hb0, bind_lift_ok, Hb, bind_lift_ok, Hlen.
  unfold np.zeros. rewrite size_2.
  rewrite (bind_run _ _ _ _ _ (revolve_loop_run h p n1 n2 8 0 eq_refl Hsh Hrot)).
  rewrite (bind_run _ _ _ _ _ (deref_last _ _)).
  unfold lift. now rewrite Hv.
Qed.

(** C9, as the code has it.  [revolve] clones the profile, promotes it to
    three dimensions and to rational form, and returns the volume the
    kernel builds, with rational flag [True], from the profile's two bases,
    the scaled periodic basis and a control-point array of [8*n] rows by 4
    channels, where [n] is the number of control points of the promoted
    profile.  The rows [i*n .. (i+1)*n) are station [i]: the control points
    of the profile after [i] rotations by [pi/4], with the [z] and [w]
    channels multiplied by the station's weight, which is [1.0] for even
    [i] and [1/sqrt(2)] for odd [i].  The weight channel is multiplied, not
    set: an even station carries the weights of the profile, times [1.0].
    The caller's store only gains the clone. *)
Theorem revolve_eight_stations
    (surf : loc) (theta : float) (h : heap) (s0 s1 : Surface.t) (p : nat -> Surface.t)
    (n1 n2 : nat) (b0 b : Basis) (v : Volume.t) :
  nth_error h surf = Some s0 ->
  surface_set_dimension s0 3 = Ok s1 ->
  surface_force_rational s1 = Ok (p 0) ->
  (forall j, j < 8 -> surface_rotate (p j) (pi / 4)%float = Ok (p (S j))) ->
  (forall j, j < 8 -> np.shape (Surface.controlpoints (p j)) = [n1; n2; 4]) ->
  surface_len (p 0) = n1 * n2 ->
  BSplineBasis (Some 3) (Some [-1; 0; 0; 1; 1; 2; 2; 3; 3; 4; 4; 5]%float) (Some 0%Z) = Ok b0 ->
  basis_imul b0 (2 * pi / 4)%float = Ok b ->
  Volume_init (Some (fst (Surface.bases (p 8)))) (Some (snd (Surface.bases (p 8)))) (Some b)
              (Some (NdArray (revolve_lattice p (n1 * n2)))) true = Ok v ->
  revolve surf theta h = (Ok v, h ++ [p 8])
  /\ np.shape (revolve_lattice p (n1 * n2)) = [8 * (n1 * n2); 4]
  /\ np.rows (revolve_lattice p (n1 * n2)) = stations p 8
  /\ length (stations p 8) = 8 * (n1 * n2)
  /\ (forall i, i < 8 ->
        firstn (n1 * n2) (skipn (i * (n1 * n2)) (stations p 8))
        = map (scale_zw (if Nat.even i then 1%float else (1 / sqrt 2)%float))
              (lattice_points (Surface.controlpoints (p i))))
  /\ (forall i x y z w, i < 8 ->
        scale_zw (station_weight i) [x; y; z; w]
        = if Nat.even i then [x; y; (z * 1)%float; (w * 1)%float]
          else [x; y; (z * (1 / sqrt 2))%float; (w * (1 / sqrt 2))%float])
  /\ (1 * 1 = 1)%float.
Proof.
  intros Hs0 Hdim Hrat Hrot Hsh Hlen Hb0 Hb Hv.
  destruct (stations_rows p n1 n2 8 Hsh) as [Hl Hr].
  split; [|split; [reflexivity | split; [|split; [exact Hl|split; [|split]]]]].
  - exact (revolve_run surf theta h s0 s1 p n1 n2 b0 b v Hs0 Hdim Hrat Hrot Hsh Hlen Hb0 Hb Hv).
  - unfold np.rows, revolve_lattice. cbn [np.shape np.data last].
    apply chunks_of_concat; [lia | exact Hr].
  - intros i Hi. now rewrite (stations_block p n1 n2 8 i Hsh Hi).
  - intros i x y z w _. unfold station_weight. destruct (Nat.even i); reflexivity.
  - reflexivity.
Qed.

(** C3. The sweep angle is never read.  [revolve(surf, theta)] is the same
    computation as [revolve(surf, 2*pi)], for every [theta], from every
    store.  Whenever the kernel calls succeed, every [theta] yields the
    one volume built on the fixed third basis, the periodic order-3 basis
    on the knots [-1, 0, 0, 1, 1, 2, 2, 3, 3, 4, 4, 5] scaled by [2*pi/4]
    (four quadrants, the full turn), and on the array of eight stations,
    [8*n] rows by 4 channels, an eighth of a turn apart. *)
Theorem revolve_ignores_theta
    (surf : loc) (h : heap) (s0 s1 : Surface.t) (p : nat -> Surface.t)
    (n1 n2 : nat) (b0 b : Basis) (v : Volume.t) :
  nth_error h surf = Some s0 ->
  surface_set_dimension s0 3 = Ok s1 ->
  surface_force_rational s1 = Ok (p 0) ->
  (forall j, j < 8 -> surface_rotate (p j) (pi / 4)%float = Ok (p (S j))) ->
  (forall j, j < 8 -> np.shape (Surface.controlpoints (p j)) = [n1; n2; 4]) ->
  surface_len (p 0) = n1 * n2 ->
  BSplineBasis (Some 3) (Some [-1; 0; 0; 1; 1; 2; 2; 3; 3; 4; 4; 5]%float) (Some 0%Z) = Ok b0 ->
  basis_imul b0 (2 * pi / 4)%float = Ok b ->
  Volume_init (Some (fst (Surface.bases (p 8)))) (Some (snd (Surface.bases (p 8)))) (Some b)
              (Some (NdArray (revolve_lattice p (n1 * n2)))) true = Ok v ->
  (forall (l : loc) (theta : float) (st : heap),
      revolve l theta st = revolve l (2 * pi)%float st
      /\ revolve l theta st = revolve_default l st)
  /\ (forall theta : float, revolve surf theta h = (Ok v, h ++ [p 8]))
  /\ revolve_default surf h = (Ok v, h ++ [p 8])
  /\ np.shape (revolve_lattice p (n1 * n2)) = [8 * (n1 * n2); 4]
  /\ np.rows (revolve_lattice p (n1 * n2))
     = concat (map (fun i => station i (p i)) [0; 1; 2; 3; 4; 5; 6; 7])
  /\ (forall i, i < 8 -> length (station i (p i)) = n1 * n2).
Proof.
  intros Hs0 Hdim Hrat Hrot Hsh Hlen Hb0 Hb Hv.
  destruct (stations_rows p n1 n2 8 Hsh) as [Hl Hr].
  split; [|split; [|split; [|split; [reflexivity | split]]]].
  - intros l theta st. split; reflexivity.
  - intros theta.
    exact (revolve_run surf theta h s0 s1 p n1 n2 b0 b v Hs0 Hdim Hrat Hrot Hsh Hlen Hb0 Hb Hv).
  - exact (revolve_run surf _ h s0 s1 p n1 n2 b0 b v Hs0 Hdim Hrat Hrot Hsh Hlen Hb0 Hb Hv).
  - unfold np.rows, revolve_lattice. cbn [np.shape np.data last].
    apply chunks_of_concat; [lia | exact Hr].
  - intros i Hi. unfold station. rewrite length_map.
    now destruct (lattice_points_length _ _ _ _ (Hsh i Hi)).
Qed.

End RevolveTheorems.

(** ** cylinder and extrude *)

Lemma nth_error_replace_nth {A : Type} (h : list A) (l : nat) (x y : A) :
  nth_error h l = Some x -> nth_error (replace_nth l y h) l = Some y.
Proof.
  revert l. induction h as [|z h IH]; intros [|l] H; try discriminate; cbn in *; auto.
Qed.

Lemma replace_nth_twice {A : Type} (h : list A) (l : nat) (x y : A) :
  replace_nth l y (replace_nth l x h) = replace_nth l y h.
Proof.
  revert l. induction h as [|z h IH]; intros [|l]; cbn; try reflexivity. now rewrite IH.
Qed.

Lemma call_run (f : Surface.t -> result Surface.t) (l : loc) (h : heap) (s s' : Surface.t) :
  nth_error h l = Some s -> f s = Ok s' -> call f l h = (Ok tt, replace_nth l s' h).
Proof.
  intros Hl Hf. unfold call. rewrite (bind_run _ _ _ _ _ (deref_run _ _ _ Hl)).
  unfold lift, bind, store. now rewrite Hf.
Qed.

Lemma for_each_copy {A : Type} (pts acc : list A) (h : heap) :
  for_each pts (fun cp controlpoint => ret (cp ++ [controlpoint])) acc h
  = (Ok (acc ++ pts), h).
Proof.
  revert acc. induction pts as [|p pts IH]; intros acc; cbn [for_each].
  - unfold ret. now rewrite app_nil_r.
  - rewrite bind_ret, IH, <- app_assoc. reflexivity.
Qed.

Lemma for_each_axis (pts acc : list (list float)) (h : heap) :
  Forall (fun p => length p = 4) pts ->
  for_each pts
           (fun cp controlpoint =>
              z <- lift (list_getitem controlpoint 2) ;;
              w <- lift (list_getitem controlpoint 3) ;;
              ret (cp ++ [[0; 0; z; w]%float]))
           acc h
  = (Ok (acc ++ map project_to_axis pts), h).
Proof.
  intros Hpts. revert acc. induction Hpts as [|p pts Hp _ IH]; intros acc; cbn [for_each map].
  - unfold ret. now rewrite app_nil_r.
  - destruct p as [|x [|y [|z [|w [|]]]]]; try discriminate.
    unfold list_getitem. cbn [nth_error]. mrun. rewrite IH, <- app_assoc.
    reflexivity.
Qed.

Section CylinderExtrude.

Context {K : Kernel}.

(** C10. [cylinder(r, h)] returns the volume the kernel builds, always with
    rational flag [True], from the shell's two bases, the default basis
    [BSplineBasis()] and a list of control points made of two copies of the
    shell's control points in traversal order: first every point with [x]
    and [y] replaced by 0 ([z] and weight kept), then every point as it is.
    The shell's control points carry the four channels [x, y, z, w]. *)
Theorem cylinder_two_layers
    (r h : float) (st : heap) (shell : Surface.t) (b : Basis) (v : Volume.t) :
  SurfaceFactory_cylinder r h = Ok shell ->
  Forall (fun p => length p = 4) (surface_iter shell) ->
  BSplineBasis None None None = Ok b ->
  Volume_init (Some (fst (Surface.bases shell))) (Some (snd (Surface.bases shell))) (Some b)
              (Some (PyRows (map project_to_axis (surface_iter shell) ++ surface_iter shell)))
              true = Ok v ->
  cylinder r h st = (Ok v, st)
  /\ (forall x y z w, project_to_axis [x; y; z; w] = [0; 0; z; w]%float).
Proof.
  intros Hshell Hpts Hb Hv. split; [|reflexivity].
  unfold cylinder. rewrite Hshell, bind_lift_ok.
  rewrite (bind_run _ _ _ _ _ (for_each_axis _ [] st Hpts)).
  rewrite (bind_run _ _ _ _ _ (for_each_copy _ _ st)).
  rewrite Hb, bind_lift_ok. cbn [app]. unfold lift. now rewrite Hv.
Qed.

(** What [extrude] does to the store: the caller's own object is promoted
    to three dimensions, translated and translated back, and stays so. *)
Lemma extrude_run
    (surf : loc) (d : float) (h : heap) (s0 s1 s2 s3 : Surface.t) (b : Basis) (v : Volume.t) :
  nth_error h surf = Some s0 ->
  surface_set_dimension s0 3 = Ok s1 ->
  surface_iadd s1 [0; 0; d]%float = Ok s2 ->
  surface_isub s2 [0; 0; d]%float = Ok s3 ->
  BSplineBasis (Some 2) None None = Ok b ->
  Volume_init (Some (fst (Surface.bases s3))) (Some (snd (Surface.bases s3))) (Some b)
              (Some (PyRows (surface_iter s1 ++ surface_iter s2))) (Surface.rational s3) = Ok v ->
  extrude surf d h = (Ok v, replace_nth surf s3 h).
Proof.
  intros H0 H1 H2 H3 Hb Hv. unfold extrude.
  rewrite (bind_run _ _ _ _ _ (call_run (fun s => surface_set_dimension s 3) _ _ _ _ H0 H1)).
  pose proof (nth_error_replace_nth h surf s0 s1 H0) as Hs1.
  rewrite (bind_run _ _ _ _ _ (deref_run _ _ _ Hs1)).
  rewrite (bind_run _ _ _ _ _ (for_each_copy _ _ _)).
  rewrite (bind_run _ _ _ _ _
             (call_run (fun s => surface_iadd s [0; 0; d]%float) _ _ _ _ Hs1 H2)).
  rewrite replace_nth_twice.
  pose proof (nth_error_replace_nth h surf s0 s2 H0) as Hs2.
  rewrite (bind_run _ _ _ _ _ (deref_run _ _ _ Hs2)).
  rewrite (bind_run _ _ _ _ _ (for_each_copy _ _ _)).
  rewrite (bind_run _ _ _ _ _
             (call_run (fun s => surface_isub s [0; 0; d]%float) _ _ _ _ Hs2 H3)).
  rewrite replace_nth_twice.
  pose proof (nth_error_replace_nth h surf s0 s3 H0) as Hs3.
  rewrite (bind_run _ _ _ _ _ (deref_run _ _ _ Hs3)).
  rewrite Hb, bind_lift_ok. cbn [app]. unfold lift. now rewrite Hv.
Qed.

End CylinderExtrude.

(** ** The two layers of a ruled volume *)

Lemma zip_with_length {A B C : Type} (f : A -> B -> C) (l : list A) (m : list B) :
  length l = length m -> length (np.zip_with f l m) = length l.
Proof.
  revert m. induction l as [|x l IH]; intros [|y m] H; try discriminate; cbn; auto.
Qed.

Lemma chunks_length {A : Type} (c s : nat) (d : list A) :
  0 < c -> length d = s * c -> length (np.chunks c d) = s.
Proof.
  intros Hc Hlen. unfold np.chunks. now rewrite length_map, length_seq, (chunks_count c s d).
Qed.

(** Writing layer 0 and then layer 1 of a two-layer block leaves the two
    rows side by side. *)
Lemma ruled_blocks (d : nat) (R1 R2 A : list (list float)) :
  length A = length R1 -> length R2 = length R1 ->
  Forall (fun blk => length blk = 2 * d) A ->
  Forall (fun r => length r = d) R1 ->
  Forall (fun r => length r = d) R2 ->
  let A1 := np.zip_with (fun blk row => np.splice (0 * d) (0 * d + d) (fun _ => row) blk) A R1 in
  Forall (fun blk => length blk = 2 * d) A1
  /\ np.zip_with (fun blk row => np.splice (1 * d) (1 * d + d) (fun _ => row) blk) A1 R2
     = np.zip_with (@app float) R1 R2.
Proof.
  revert R2 A. induction R1 as [|r1 R1 IH]; intros [|r2 R2] [|blk A] HA HR HblkA Hr1 Hr2;
    try discriminate; cbn zeta.
  - split; [constructor | reflexivity].
  - apply Forall_cons_iff in HblkA as [Hblk HA'].
    apply Forall_cons_iff in Hr1 as [Hl1 Hr1'].
    apply Forall_cons_iff in Hr2 as [Hl2 Hr2'].
    cbn in HA, HR.
    destruct (IH R2 A ltac:(lia) ltac:(lia) HA' Hr1' Hr2') as [IHa IHb].
    cbn [np.zip_with]. split.
    + constructor; [|exact IHa].
      unfold np.splice. rewrite !length_app, length_firstn, length_skipn. lia.
    + f_equal; [|exact IHb].
      unfold np.splice. cbn [Nat.mul Nat.add firstn app]. rewrite Nat.add_0_r.
      rewrite firstn_app, Hl1, Nat.sub_diag, firstn_O, app_nil_r, firstn_all2 by lia.
      f_equal. rewrite (skipn_all2 (n := d + d)), app_nil_r; [reflexivity|].
      rewrite length_app, length_skipn. lia.
Qed.

Lemma layers_of_zip (d : nat) (R1 R2 : list (list float)) :
  length R2 = length R1 ->
  Forall (fun r => length r = d) R1 ->
  Forall (fun r => length r = d) R2 ->
  map (fun blk => firstn d (skipn (0 * d) blk)) (np.zip_with (@app float) R1 R2) = R1
  /\ map (fun blk => firstn d (skipn (1 * d) blk)) (np.zip_with (@app float) R1 R2) = R2
  /\ Forall (fun blk => length blk = 2 * d) (np.zip_with (@app float) R1 R2).
Proof.
  revert R2. induction R1 as [|r1 R1 IH]; intros [|r2 R2] HR Hr1 Hr2; try discriminate.
  - repeat split; constructor.
  - apply Forall_cons_iff in Hr1 as [Hl1 Hr1']. apply Forall_cons_iff in Hr2 as [Hl2 Hr2'].
    cbn in HR. destruct (IH R2 ltac:(lia) Hr1' Hr2') as (IHa & IHb & IHc).
    cbn [np.zip_with map]. repeat split.
    + f_equal; [|exact IHa]. cbn [Nat.mul skipn].
      rewrite firstn_app, Hl1, Nat.sub_diag, firstn_O, app_nil_r. apply firstn_all2. lia.
    + f_equal; [|exact IHb]. rewrite Nat.mul_1_l.
      rewrite skipn_app, Hl1, Nat.sub_diag, skipn_O, skipn_all2, app_nil_l by lia.
      apply firstn_all2. lia.
    + constructor; [|exact IHc]. rewrite length_app. lia.
Qed.

Lemma set_layer_ok (a b : np.ndarray) (n1 n2 n3 d k : nat) :
  np.shape a = [n1; n2; n3; d] -> k < n3 -> np.shape b = [n1; n2; d] -> np.wf b ->
  np.set_layer a k b
  = Ok (np.mk [n1; n2; n3; d]
              (concat (np.zip_with (fun blk row => np.splice (k * d) (k * d + d) (fun _ => row) blk)
                                   (np.chunks (n3 * d) (np.data a))
                                   (np.chunks d (np.data b))))).
Proof.
  intros Ha Hk Hb Wb. unfold np.set_layer. rewrite Ha.
  replace (k <? n3) with true by (symmetry; now apply Nat.ltb_lt).
  rewrite (assign_to_same b) by (assumption || (unfold np.wf in Wb; now rewrite Hb in Wb)).
  reflexivity.
Qed.

(** The lattice of a ruled volume between two lattices of the same shape. *)
Lemma ruled_lattice_layers (c1 c2 : np.ndarray) (n1 n2 d : nat) :
  np.shape c1 = [n1; n2; d] -> np.shape c2 = [n1; n2; d] -> np.wf c1 -> np.wf c2 ->
  exists a1,
    np.set_layer (np.zeros [n1; n2; 2; d]) 0 c1 = Ok a1
    /\ np.set_layer a1 1 c2 = Ok (ruled_lattice c1 c2)
    /\ np.shape (ruled_lattice c1 c2) = [n1; n2; 2; d]
    /\ np.get_layer (ruled_lattice c1 c2) 0 = Ok c1
    /\ np.get_layer (ruled_lattice c1 c2) 1 = Ok c2.
Proof.
  intros H1 H2 W1 W2.
  eexists. split; [apply set_layer_ok; (reflexivity || lia || assumption)|].
  rewrite (set_layer_ok _ c2 n1 n2 2 d 1) by (reflexivity || lia || assumption).
  unfold np.wf in W1, W2. rewrite H1 in W1. rewrite H2 in W2.
  cbn [np.size fold_right] in W1, W2. rewrite Nat.mul_1_r in W1, W2.
  unfold ruled_lattice. rewrite H1.
  unfold np.get_layer. cbn [np.zeros np.shape np.data Nat.ltb Nat.leb].
  destruct d as [|d].
  - assert (E1 : np.data c1 = []) by (destruct (np.data c1); [reflexivity | cbn in W1; lia]).
    assert (E2 : np.data c2 = []) by (destruct (np.data c2); [reflexivity | cbn in W2; lia]).
    destruct c1 as [sh1 d1], c2 as [sh2 d2]. cbn in *. subst.
    repeat split.
  - set (dd := S d) in *.
    assert (Hc1 : length (np.data c1) = (n1 * n2) * dd) by lia.
    assert (Hc2 : length (np.data c2) = (n1 * n2) * dd) by lia.
    assert (Hz : length (repeat 0%float (np.size [n1; n2; 2; dd])) = (n1 * n2) * (2 * dd))
      by (rewrite repeat_length; cbn [np.size fold_right]; lia).
    pose proof (chunks_rows_length dd _ _ Hc1) as F1.
    pose proof (chunks_rows_length dd _ _ Hc2) as F2.
    pose proof (chunks_rows_length (2 * dd) _ _ Hz) as FA.
    pose proof (chunks_length dd _ _ ltac:(unfold dd; lia) Hc1) as L1.
    pose proof (chunks_length dd _ _ ltac:(unfold dd; lia) Hc2) as L2.
    pose proof (chunks_length (2 * dd) _ _ ltac:(unfold dd; lia) Hz) as LA.
    destruct (ruled_blocks dd _ _ _ (eq_trans LA (eq_sym L1)) (eq_trans L2 (eq_sym L1)) FA F1 F2)
      as [FA1 Hzip].
    destruct (layers_of_zip dd _ _ (eq_trans L2 (eq_sym L1)) F1 F2) as (G0 & G1 & FZ).
    rewrite (chunks_of_concat (2 * dd)) by (assumption || unfold dd; lia).
    rewrite Hzip.
    rewrite (chunks_of_concat (2 * dd)) by (assumption || unfold dd; lia).
    rewrite G0, G1.
    rewrite (concat_chunks dd (n1 * n2)) by (assumption || unfold dd; lia).
    rewrite (concat_chunks dd (n1 * n2)) by (assumption || unfold dd; lia).
    destruct c1 as [sh1 d1], c2 as [sh2 d2]. cbn in H1, H2 |- *. subst.
    repeat split.
Qed.

(** ** edge_surfaces on two surfaces *)

Lemma replace_nth_app1 {A : Type} (h1 h2 : list A) (l : nat) (x : A) :
  l < length h1 -> replace_nth l x (h1 ++ h2) = replace_nth l x h1 ++ h2.
Proof.
  revert l. induction h1 as [|y h1 IH]; intros [|l] Hl; cbn in *; try lia; try reflexivity.
  rewrite IH by lia. reflexivity.
Qed.

Lemma nth_error_app_left {A : Type} (h1 h2 : list A) (l : nat) (x : A) :
  nth_error h1 l = Some x -> nth_error (h1 ++ h2) l = Some x.
Proof.
  intros H. rewrite nth_error_app1; [exact H|]. apply nth_error_Some. congruence.
Qed.

Lemma call2_last2 (f : Surface.t -> Surface.t -> result (Surface.t * Surface.t))
      (h : heap) (x y x' y' : Surface.t) :
  f x y = Ok (x', y') ->
  call2 f (length h) (length (h ++ [x])) ((h ++ [x]) ++ [y]) = (Ok tt, (h ++ [x']) ++ [y']).
Proof.
  intros Hf. unfold call2.
  rewrite (bind_run _ _ _ _ _ (deref_run _ _ _ (nth_error_app_left _ [y] _ _ (nth_error_last h x)))).
  rewrite (bind_run _ _ _ _ _ (deref_last _ _)).
  rewrite Hf, bind_lift_ok. unfold bind, store. cbn [fst snd].
  rewrite replace_nth_app1 by (rewrite length_app; cbn; lia).
  rewrite replace_nth_last.
  replace (length (h ++ [x])) with (length (h ++ [x'])) by (rewrite !length_app; reflexivity).
  now rewrite replace_nth_last.
Qed.

Section EdgeSurfacesTwo.

Context {K : Kernel}.

Lemma edge_surfaces_2_run
    (a b : loc) (h : heap) (sa sb ua ub : Surface.t) (v0 : Volume.t) (lin : Basis) :
  nth_error h a = Some sa ->
  nth_error h b = Some sb ->
  unified sa sb ua ub ->
  Volume_init None None None None false = Ok v0 ->
  BSplineBasis (Some 2) None None = Ok lin ->
  edge_surfaces_2 (PyList [PySurface a; PySurface b]) h
  = (Ok (ruled_volume ua ub lin), h ++ [ua; ub]).
Proof.
  intros Ha Hb (Hmsi & (n1 & n2 & d & Hs1 & Hs2) & W1 & W2) Hv0 Hlin.
  unfold edge_surfaces_2, py_getitem, list_getitem. cbn [nth_error]. mrun.
  unfold py_clone.
  rewrite (bind_run _ _ _ _ _ (clone_run _ _ _ Ha)). mrun.
  rewrite (bind_run _ _ _ _ _ (clone_run _ _ _ (nth_error_app_left _ [sa] _ _ Hb))).
  rewrite (bind_run _ _ _ _ _ (call2_last2 _ h sa sb ua ub Hmsi)).
  rewrite (bind_run _ _ _ _ _
             (deref_run _ _ _ (nth_error_app_left _ [ub] _ _ (nth_error_last h ua)))).
  rewrite Hs1.
  destruct (ruled_lattice_layers _ _ n1 n2 d Hs1 Hs2 W1 W2) as (a1 & Hset0 & Hset1 & _).
  rewrite Hset0, bind_lift_ok.
  replace (length (h ++ [sa])) with (length (h ++ [ua])) by (rewrite !length_app; reflexivity).
  rewrite (bind_run _ _ _ _ _ (deref_last _ _)).
  rewrite Hset1, bind_lift_ok, Hv0, bind_lift_ok, Hlin, bind_lift_ok.
  unfold ret, ruled_volume. rewrite <- app_assoc. reflexivity.
Qed.

(** C8. For two surfaces the kernel unifies into [u1] and [u2],
    [edge_surfaces(surf1, surf2)] returns a volume over the two unified
    bases and the linear basis [BSplineBasis(2)] whose lattice has two
    layers in the third direction: layer 0 is exactly the lattice of [u1]
    and layer 1 exactly the lattice of [u2].  Dimension and rational flag
    are those of [u1]; the store only gains the two clones, and the two
    input surfaces are untouched. *)
Theorem edge_surfaces_two_layers
    (a b : loc) (h : heap) (sa sb ua ub : Surface.t) (v0 : Volume.t) (lin : Basis) :
  nth_error h a = Some sa ->
  nth_error h b = Some sb ->
  unified sa sb ua ub ->
  Volume_init None None None None false = Ok v0 ->
  BSplineBasis (Some 2) None None = Ok lin ->
  exists v,
    edge_surfaces [PySurface a; PySurface b] h = (Ok v, h ++ [ua; ub])
    /\ Volume.bases v = (fst (Surface.bases ua), snd (Surface.bases ua), lin)
    /\ Volume.dimension v = Surface.dimension ua
    /\ Volume.rational v = Surface.rational ua
    /\ (exists n1 n2 d, np.shape (Surface.controlpoints ua) = [n1; n2; d]
                        /\ np.shape (Volume.controlpoints v) = [n1; n2; 2; d])
    /\ np.get_layer (Volume.controlpoints v) 0 = Ok (Surface.controlpoints ua)
    /\ np.get_layer (Volume.controlpoints v) 1 = Ok (Surface.controlpoints ub)
    /\ nth_error (h ++ [ua; ub]) a = Some sa
    /\ nth_error (h ++ [ua; ub]) b = Some sb.
Proof.
  intros Ha Hb Hu Hv0 Hlin. exists (ruled_volume ua ub lin).
  pose proof (edge_surfaces_2_run a b h sa sb ua ub v0 lin Ha Hb Hu Hv0 Hlin) as Hrun.
  destruct Hu as (_ & (n1 & n2 & d & Hs1 & Hs2) & W1 & W2).
  destruct (ruled_lattice_layers _ _ n1 n2 d Hs1 Hs2 W1 W2) as (a1 & _ & _ & Hsh & G0 & G1).
  split; [exact Hrun|]. repeat split; try assumption.
  - exists n1, n2, d. split; assumption.
  - now apply nth_error_app_left.
  - now apply nth_error_app_left.
Qed.

End EdgeSurfacesTwo.

(** ** edge_surfaces on six surfaces *)

Lemma iadd_same (a b : np.ndarray) :
  np.shape b = np.shape a -> np.wf b ->
  np.iadd a b = Ok (np.mk (np.shape a) (np.zip_with PrimFloat.add (np.data a) (np.data b))).
Proof.
  intros Hs Hw. unfold np.iadd. unfold np.wf in Hw. rewrite Hs in Hw.
  now rewrite (broadcast_to_same b (np.shape a) Hs Hw).
Qed.

Lemma isub_same (a b : np.ndarray) :
  np.shape b = np.shape a -> np.wf b ->
  np.isub a b = Ok (np.mk (np.shape a) (np.zip_with PrimFloat.sub (np.data a) (np.data b))).
Proof.
  intros Hs Hw. unfold np.isub. unfold np.wf in Hw. rewrite Hs in Hw.
  now rewrite (broadcast_to_same b (np.shape a) Hs Hw).
Qed.

Lemma nth_zip_with {A B C : Type} (f : A -> B -> C) (l : list A) (m : list B)
      (i : nat) (da : A) (db : B) (dc : C) :
  i < length l -> i < length m ->
  nth i (np.zip_with f l m) dc = f (nth i l da) (nth i m db).
Proof.
  revert m i. induction l as [|x l IH]; intros [|y m] [|i] Hl Hm; cbn in *; try lia; auto.
  apply IH; lia.
Qed.

Ltac rbind_inv H :=
  lazymatch type of H with
  | rbind ?r _ = Ok _ =>
      let E := fresh "E" in
      destruct r eqn:E; [cbn [rbind] in H; rbind_inv E; cbn iota in H; rbind_inv H
                        | discriminate H]
  | Ok _ = Ok ?v => tryif is_var v then (injection H as H; subst v) else idtac
  | _ => idtac
  end.

Section EdgeSurfacesSix.

Context {K : Kernel}.

Lemma edge_surfaces_6_run
    (l0 l1 l2 l3 l4 l5 : loc) (h : heap)
    (s0 s1 s2 s3 s4 s5 u0 u1 u2 u3 u4 u5 : Surface.t)
    (v0 V1 V2 V3 V4 : Volume.t) (lin : Basis) :
  nth_error h l0 = Some s0 -> nth_error h l1 = Some s1 ->
  nth_error h l2 = Some s2 -> nth_error h l3 = Some s3 ->
  nth_error h l4 = Some s4 -> nth_error h l5 = Some s5 ->
  unified s0 s1 u0 u1 -> unified s2 s3 u2 u3 -> unified s4 s5 u4 u5 ->
  Volume_init None None None None false = Ok v0 ->
  BSplineBasis (Some 2) None None = Ok lin ->
  coons_operands (ruled_volume u0 u1 lin) (ruled_volume u2 u3 lin) (ruled_volume u4 u5 lin)
  = Ok (V1, V2, V3, V4) ->
  np.shape (Volume.controlpoints V2) = np.shape (Volume.controlpoints V1) ->
  np.shape (Volume.controlpoints V3) = np.shape (Volume.controlpoints V1) ->
  np.shape (Volume.controlpoints V4) = np.shape (Volume.controlpoints V1) ->
  np.wf (Volume.controlpoints V2) -> np.wf (Volume.controlpoints V3) ->
  np.wf (Volume.controlpoints V4) ->
  edge_surfaces_6 (PyList [PySurface l0; PySurface l1; PySurface l2;
                           PySurface l3; PySurface l4; PySurface l5]) h
  = (Ok (Volume.set_controlpoints V1
           (coons_sum (Volume.controlpoints V1) (Volume.controlpoints V2)
                      (Volume.controlpoints V3) (Volume.controlpoints V4))),
     h ++ [u0; u1; u2; u3; u4; u5]).
Proof.
  intros H0 H1 H2 H3 H4 H5 U01 U23 U45 Hv0 Hlin Hops S2 S3 S4 W2 W3 W4.
  unfold edge_surfaces_6, py_getitem, list_getitem. cbn [nth_error]. mrun.
  rewrite (bind_run _ _ _ _ _ (edge_surfaces_2_run _ _ _ _ _ _ _ _ _ H0 H1 U01 Hv0 Hlin)).
  rewrite (bind_run _ _ _ _ _
             (edge_surfaces_2_run _ _ _ _ _ _ _ _ _
                (nth_error_app_left _ [u0; u1] _ _ H2)
                (nth_error_app_left _ [u0; u1] _ _ H3) U23 Hv0 Hlin)).
  rewrite (bind_run _ _ _ _ _
             (edge_surfaces_2_run _ _ _ _ _ _ _ _ _
                (nth_error_app_left _ [u2; u3] _ _ (nth_error_app_left _ [u0; u1] _ _ H4))
                (nth_error_app_left _ [u2; u3] _ _ (nth_error_app_left _ [u0; u1] _ _ H5))
                U45 Hv0 Hlin)).
  unfold coons_operands, corner_volume, common_axes, unify_pairwise in Hops.
  rbind_inv Hops.
  injection Hops as <- <- <- <-.
  repeat first [ progress mrun
               | match goal with E : _ = Ok _ |- _ => rewrite E; clear E end ].
  unfold Volume.clone.
  rewrite (iadd_same _ _ S2 W2), bind_lift_ok. cbn [Volume.set_controlpoints Volume.controlpoints].
  rewrite iadd_same by first [exact S3 | exact W3].
  rewrite bind_lift_ok. cbn [Volume.set_controlpoints Volume.controlpoints].
  rewrite isub_same;
    [| exact S4 | unfold np.wf, np.smul; cbn [np.data np.shape]; now rewrite length_map ].
  rewrite bind_lift_ok. unfold ret, coons_sum.
  cbn [Volume.set_controlpoints Volume.controlpoints Volume.bases Volume.dimension
       Volume.rational np.shape np.data np.smul].
  rewrite <- !app_assoc. reflexivity.
Qed.

End EdgeSurfacesSix.

Section EdgeSurfacesTheorems.

Context {K : Kernel}.

(** C4. For six boundary surfaces whose three opposing pairs the kernel
    unifies, let [V1], [V2], [V3], [V4] be the operands of the blend: the
    three ruled volumes and the corner volume of the first one, swapped to
    a common axis convention and unified pairwise, with lattices of one
    shape.  Then [edge_surfaces] returns [V1] with its lattice replaced by
    [V1 + V2 + V3 - 2*V4], computed entry by entry as
    [((x1 + x2) + x3) - 2*x4]. *)
Theorem edge_surfaces_coons_sum
    (l0 l1 l2 l3 l4 l5 : loc) (h : heap)
    (s0 s1 s2 s3 s4 s5 u0 u1 u2 u3 u4 u5 : Surface.t)
    (v0 V1 V2 V3 V4 : Volume.t) (lin : Basis) :
  nth_error h l0 = Some s0 -> nth_error h l1 = Some s1 ->
  nth_error h l2 = Some s2 -> nth_error h l3 = Some s3 ->
  nth_error h l4 = Some s4 -> nth_error h l5 = Some s5 ->
  unified s0 s1 u0 u1 -> unified s2 s3 u2 u3 -> unified s4 s5 u4 u5 ->
  Volume_init None None None None false = Ok v0 ->
  BSplineBasis (Some 2) None None = Ok lin ->
  coons_operands (ruled_volume u0 u1 lin) (ruled_volume u2 u3 lin) (ruled_volume u4 u5 lin)
  = Ok (V1, V2, V3, V4) ->
  np.shape (Volume.controlpoints V2) = np.shape (Volume.controlpoints V1) ->
  np.shape (Volume.controlpoints V3) = np.shape (Volume.controlpoints V1) ->
  np.shape (Volume.controlpoints V4) = np.shape (Volume.controlpoints V1) ->
  np.wf (Volume.controlpoints V1) -> np.wf (Volume.controlpoints V2) ->
  np.wf (Volume.controlpoints V3) -> np.wf (Volume.controlpoints V4) ->
  let c1 := Volume.controlpoints V1 in
  let c2 := Volume.controlpoints V2 in
  let c3 := Volume.controlpoints V3 in
  let c4 := Volume.controlpoints V4 in
  edge_surfaces [PySurface l0; PySurface l1; PySurface l2;
                 PySurface l3; PySurface l4; PySurface l5] h
  = (Ok (Volume.set_controlpoints V1 (coons_sum c1 c2 c3 c4)), h ++ [u0; u1; u2; u3; u4; u5])
  /\ np.shape (coons_sum c1 c2 c3 c4) = np.shape c1
  /\ length (np.data (coons_sum c1 c2 c3 c4)) = np.size (np.shape c1)
  /\ forall i, i < np.size (np.shape c1) ->
       nth i (np.data (coons_sum c1 c2 c3 c4)) 0%float
       = (nth i (np.data c1) 0 + nth i (np.data c2) 0 + nth i (np.data c3) 0
          - 2 * nth i (np.data c4) 0)%float.
Proof.
  intros H0 H1 H2 H3 H4 H5 U01 U23 U45 Hv0 Hlin Hops S2 S3 S4 W1 W2 W3 W4 c1 c2 c3 c4.
  split.
  - exact (edge_surfaces_6_run l0 l1 l2 l3 l4 l5 h s0 s1 s2 s3 s4 s5 u0 u1 u2 u3 u4 u5
             v0 V1 V2 V3 V4 lin H0 H1 H2 H3 H4 H5 U01 U23 U45 Hv0 Hlin Hops S2 S3 S4 W2 W3 W4).
  - unfold np.wf in W1, W2, W3, W4. rewrite S2 in W2. rewrite S3 in W3. rewrite S4 in W4.
    fold c1 c2 c3 c4 in W1, W2, W3, W4.
    assert (L12 : length (np.zip_with PrimFloat.add (np.data c1) (np.data c2))
                  = np.size (np.shape c1))
      by (rewrite zip_with_length; congruence).
    assert (L123 : length (np.zip_with PrimFloat.add
                             (np.zip_with PrimFloat.add (np.data c1) (np.data c2)) (np.data c3))
                   = np.size (np.shape c1))
      by (rewrite zip_with_length; congruence).
    assert (L4 : length (map (fun x => PrimFloat.mul 2 x) (np.data c4)) = np.size (np.shape c1))
      by (rewrite length_map; congruence).
    split; [reflexivity|]. split.
    + unfold coons_sum. cbn [np.data]. rewrite zip_with_length; congruence.
    + intros i Hi. unfold coons_sum. cbn [np.data].
      rewrite (nth_zip_with _ _ _ i 0%float 0%float) by lia.
      rewrite (nth_zip_with _ _ _ i 0%float 0%float) by lia.
      rewrite (nth_zip_with _ _ _ i 0%float 0%float) by lia.
      f_equal.
      rewrite (nth_indep _ 0%float (PrimFloat.mul 2 0)) by lia.
      now rewrite (map_nth (fun x => PrimFloat.mul 2 x)).
Qed.

Lemma py_len_surface_run (l : loc) (st : heap) (s : Surface.t) :
  nth_error st l = Some s -> py_len (PySurface l) st = (Ok (surface_len s), st).
Proof.
  intros Hl. cbn [py_len]. now rewrite (bind_run _ _ _ _ _ (deref_run _ _ _ Hl)).
Qed.

Lemma py_getitem_surface_run (l : loc) (st : heap) (s : Surface.t) (i : nat) (p : list float) :
  nth_error st l = Some s -> surface_getitem s i = Ok p ->
  py_getitem (PySurface l) i st = (Ok (PyPoint p), st).
Proof.
  intros Hl Hp. cbn [py_getitem]. rewrite (bind_run _ _ _ _ _ (deref_run _ _ _ Hl)).
  rewrite Hp. reflexivity.
Qed.

Lemma py_len_heap (v : pyval) (h : heap) : snd (py_len v h) = h.
Proof.
  destruct v as [l| | |]; try reflexivity.
  cbn [py_len]. unfold bind, deref. destruct (nth_error h l); reflexivity.
Qed.

(** C6.  [edge_surfaces] measures one value: its arguments, or the lone
    argument itself when there is exactly one, so a lone collection is
    measured by its number of surfaces and a lone surface by its number of
    control points.  When that number is neither 2 nor 6 the call raises
    [ValueError] and leaves the store untouched.  Two surfaces, given
    directly or as one collection, yield the ruled volume, and six the
    Coons blend, as soon as the kernel unifies them.  A lone surface that
    has two or six control points is taken for two or six surfaces: it
    passes the count check and the call ends in [AttributeError], not in
    the [ValueError] the function documents for a count other than two or
    six. *)
Theorem edge_surfaces_count_check
    (l0 l1 l2 l3 l4 l5 : loc) (h : heap)
    (s0 s1 s2 s3 s4 s5 u0 u1 u2 u3 u4 u5 : Surface.t)
    (v0 V1 V2 V3 V4 : Volume.t) (lin : Basis) :
  nth_error h l0 = Some s0 -> nth_error h l1 = Some s1 ->
  nth_error h l2 = Some s2 -> nth_error h l3 = Some s3 ->
  nth_error h l4 = Some s4 -> nth_error h l5 = Some s5 ->
  unified s0 s1 u0 u1 -> unified s2 s3 u2 u3 -> unified s4 s5 u4 u5 ->
  Volume_init None None None None false = Ok v0 ->
  BSplineBasis (Some 2) None None = Ok lin ->
  coons_operands (ruled_volume u0 u1 lin) (ruled_volume u2 u3 lin) (ruled_volume u4 u5 lin)
  = Ok (V1, V2, V3, V4) ->
  np.shape (Volume.controlpoints V2) = np.shape (Volume.controlpoints V1) ->
  np.shape (Volume.controlpoints V3) = np.shape (Volume.controlpoints V1) ->
  np.shape (Volume.controlpoints V4) = np.shape (Volume.controlpoints V1) ->
  np.wf (Volume.controlpoints V2) -> np.wf (Volume.controlpoints V3) ->
  np.wf (Volume.controlpoints V4) ->
  let two := [PySurface l0; PySurface l1] in
  let six := [PySurface l0; PySurface l1; PySurface l2;
              PySurface l3; PySurface l4; PySurface l5] in
  let blend := Volume.set_controlpoints V1
                 (coons_sum (Volume.controlpoints V1) (Volume.controlpoints V2)
                            (Volume.controlpoints V3) (Volume.controlpoints V4)) in
  (forall (args : list pyval) (st : heap) (n : nat),
      fst (py_len (inspected args) st) = Ok n -> n <> 2 -> n <> 6 ->
      edge_surfaces args st = (Raise (ValueError "Requires two or six input surfaces"), st))
  /\ edge_surfaces two h = (Ok (ruled_volume u0 u1 lin), h ++ [u0; u1])
  /\ edge_surfaces [PyList two] h = (Ok (ruled_volume u0 u1 lin), h ++ [u0; u1])
  /\ edge_surfaces six h = (Ok blend, h ++ [u0; u1; u2; u3; u4; u5])
  /\ edge_surfaces [PyList six] h = (Ok blend, h ++ [u0; u1; u2; u3; u4; u5])
  /\ (forall (l : loc) (st : heap) (s : Surface.t) (p : list float),
         nth_error st l = Some s -> surface_len s = 2 -> surface_getitem s 0 = Ok p ->
         edge_surfaces [PySurface l] st
         = (Raise (AttributeError "object has no attribute 'clone'"), st))
  /\ (forall (l : loc) (st : heap) (s : Surface.t) (p : nat -> list float),
         nth_error st l = Some s -> surface_len s = 6 ->
         (forall i, i < 6 -> surface_getitem s i = Ok (p i)) ->
         edge_surfaces [PySurface l] st
         = (Raise (AttributeError "object has no attribute 'clone'"), st)).
Proof.
  intros H0 H1 H2 H3 H4 H5 U01 U23 U45 Hv0 Hlin Hops S2 S3 S4 W2 W3 W4 two six blend.
  pose proof (edge_surfaces_2_run l0 l1 h s0 s1 u0 u1 v0 lin H0 H1 U01 Hv0 Hlin) as R2.
  pose proof (edge_surfaces_6_run l0 l1 l2 l3 l4 l5 h s0 s1 s2 s3 s4 s5 u0 u1 u2 u3 u4 u5
                v0 V1 V2 V3 V4 lin H0 H1 H2 H3 H4 H5 U01 U23 U45 Hv0 Hlin Hops
                S2 S3 S4 W2 W3 W4) as R6.
  repeat split; try assumption.
  - intros args st n Hn N2 N6.
    assert (Hsel : (if length args =? 1 then py_getitem (PyList args) 0 else ret (PyList args)) st
                   = (Ok (inspected args), st)).
    { destruct args as [|x [|y args]]; reflexivity. }
    unfold edge_surfaces. rewrite (bind_run _ _ _ _ _ Hsel).
    pose proof (py_len_heap (inspected args) st) as Hst.
    destruct (py_len (inspected args) st) as [r st'] eqn:Hlen. cbn in Hn, Hst. subst r st'.
    rewrite (bind_run _ _ _ _ _ Hlen).
    replace (n =? 2) with false by (symmetry; now apply Nat.eqb_neq).
    rewrite (bind_run _ _ _ _ _ Hlen).
    replace (n =? 6) with false by (symmetry; now apply Nat.eqb_neq).
    reflexivity.
  - intros l st s p Hl Hlen Hget.
    unfold edge_surfaces. cbn [length Nat.eqb]. unfold py_getitem at 1, list_getitem.
    cbn [nth_error]. mrun.
    rewrite (bind_run _ _ _ _ _ (py_len_surface_run l st s Hl)), Hlen. cbn [Nat.eqb].
    unfold edge_surfaces_2.
    rewrite (bind_run _ _ _ _ _ (py_getitem_surface_run l st s 0 p Hl Hget)).
    reflexivity.
  - intros l st s p Hl Hlen Hget.
    unfold edge_surfaces. cbn [length Nat.eqb]. unfold py_getitem at 1, list_getitem.
    cbn [nth_error]. mrun.
    rewrite (bind_run _ _ _ _ _ (py_len_surface_run l st s Hl)), Hlen. cbn [Nat.eqb].
    rewrite (bind_run _ _ _ _ _ (py_len_surface_run l st s Hl)), Hlen. cbn [Nat.eqb].
    unfold edge_surfaces_6.
    rewrite (bind_run _ _ _ _ _ (py_getitem_surface_run l st s 0 _ Hl (Hget 0 ltac:(lia)))).
    rewrite (bind_run _ _ _ _ _ (py_getitem_surface_run l st s 1 _ Hl (Hget 1 ltac:(lia)))).
    rewrite (bind_run _ _ _ _ _ (py_getitem_surface_run l st s 2 _ Hl (Hget 2 ltac:(lia)))).
    rewrite (bind_run _ _ _ _ _ (py_getitem_surface_run l st s 3 _ Hl (Hget 3 ltac:(lia)))).
    rewrite (bind_run _ _ _ _ _ (py_getitem_surface_run l st s 4 _ Hl (Hget 4 ltac:(lia)))).
    rewrite (bind_run _ _ _ _ _ (py_getitem_surface_run l st s 5 _ Hl (Hget 5 ltac:(lia)))).
    unfold edge_surfaces_2, py_getitem, list_getitem. cbn [nth_error]. mrun.
    reflexivity.
Qed.

End EdgeSurfacesTheorems.

(** ** loft *)

Section Loft.

Context {K : Kernel}.

Lemma clone_promote_run (h0 : heap) (ls : list loc) (promoted : list Surface.t) :
  Forall2 (promoted_from h0) ls promoted ->
  forall g,
    map_m (fun s => c <- clone s ;; call (fun s => surface_set_dimension s 3) c ;;; ret c) ls
          (h0 ++ g)
    = (Ok (seq (length (h0 ++ g)) (length ls)), (h0 ++ g) ++ promoted).
Proof.
  induction 1 as [|l s' ls promoted (s & Hl & Hdim) _ IH]; intros g; cbn [map_m length seq].
  - unfold ret. now rewrite app_nil_r.
  - rewrite bind_assoc.
    rewrite (bind_run _ _ _ _ _ (clone_run _ _ _ (nth_error_app_left _ g _ _ Hl))).
    rewrite bind_assoc.
    rewrite (bind_run _ _ _ _ _
               (call_last (fun s => surface_set_dimension s 3) _ _ _ Hdim)).
    mrun. rewrite <- app_assoc, (bind_run _ _ _ _ _ (IH (g ++ [s']))). unfold ret.
    rewrite !length_app. cbn [length]. rewrite Nat.add_1_r, <- !app_assoc.
    rewrite Nat.add_succ_r. reflexivity.
Qed.

Lemma deref_all_run (objs pre post : list Surface.t) :
  map_m deref (seq (length pre) (length objs)) (pre ++ objs ++ post)
  = (Ok objs, pre ++ objs ++ post).
Proof.
  revert pre. induction objs as [|s objs IH]; intros pre; cbn [map_m length seq].
  - reflexivity.
  - assert (Hs : nth_error (pre ++ (s :: objs) ++ post) (length pre) = Some s)
      by (rewrite nth_error_app2, Nat.sub_diag by lia; reflexivity).
    rewrite (bind_run _ _ _ _ _ (deref_run _ _ _ Hs)).
    specialize (IH (pre ++ [s])). rewrite length_app, Nat.add_1_r in IH. cbn [length] in IH.
    rewrite <- app_assoc in IH. cbn [app] in IH |- *.
    rewrite (bind_run _ _ _ _ _ IH). reflexivity.
Qed.

Lemma centers_run (promoted : list Surface.t) (x : list (list float)) :
  Forall2 (fun s' c => surface_center s' = Ok c) promoted x ->
  forall pre post,
    map_m (fun s => v <- deref s ;; lift (surface_center v))
          (seq (length pre) (length promoted)) (pre ++ promoted ++ post)
    = (Ok x, pre ++ promoted ++ post).
Proof.
  induction 1 as [|s c promoted x Hc _ IH]; intros pre post; cbn [map_m length seq].
  - reflexivity.
  - assert (Hs : nth_error (pre ++ (s :: promoted) ++ post) (length pre) = Some s)
      by (rewrite nth_error_app2, Nat.sub_diag by lia; reflexivity).
    rewrite bind_assoc, (bind_run _ _ _ _ _ (deref_run _ _ _ Hs)). rewrite Hc. mrun.
    specialize (IH (pre ++ [s]) post). rewrite length_app, Nat.add_1_r in IH.
    cbn [length] in IH. rewrite <- app_assoc in IH. cbn [app] in IH |- *.
    rewrite (bind_run _ _ _ _ _ IH). reflexivity.
Qed.

Lemma dist_loop_run (x : list (list float)) (h : heap) :
  Forall (fun c => 3 <= length c) x ->
  forall pre acc,
    for_each (combine (tl x) (removelast x)) loft_dist_step (pre ++ [acc]) h
    = (Ok (pre ++ acc :: distances_from acc x), h).
Proof.
  induction 1 as [|x0 rest H0 Hrest IH]; intros pre acc; [reflexivity|].
  destruct rest as [|x1 rest]; [reflexivity|].
  change (combine (tl (x0 :: x1 :: rest)) (removelast (x0 :: x1 :: rest)))
    with ((x1, x0) :: combine (tl (x1 :: rest)) (removelast (x1 :: rest))).
  cbn [for_each distances_from]. unfold loft_dist_step at 1. cbn [fst snd].
  assert (H1 : 3 <= length x1) by (now apply Forall_inv in Hrest).
  unfold vec_sub. rewrite !length_firstn.
  replace (Nat.min 3 (length x1)) with 3 by lia.
  replace (Nat.min 3 (length x0)) with 3 by lia.
  cbn [Nat.eqb]. mrun. rewrite last_last.
  rewrite <- app_assoc. cbn [app].
  change (pre ++ acc :: ?a :: ?l) with (pre ++ [acc] ++ a :: l).
  rewrite (app_assoc pre [acc]). rewrite IH. rewrite <- app_assoc. reflexivity.
Qed.

Lemma distances_from_cons (x0 x1 : list float) (rest : list (list float)) (acc : float) :
  distances_from acc (x0 :: x1 :: rest)
  = PrimFloat.add acc (center_distance x0 x1)
    :: distances_from (PrimFloat.add acc (center_distance x0 x1)) (x1 :: rest).
Proof. reflexivity. Qed.

Lemma distances_from_length (x : list (list float)) (acc : float) :
  length (distances_from acc x) = length x - 1.
Proof.
  revert acc. induction x as [|x0 rest IH]; intros acc; [reflexivity|].
  destruct rest as [|x1 rest]; [reflexivity|].
  rewrite distances_from_cons. cbn [length]. rewrite IH. cbn [length]. lia.
Qed.

End Loft.

Section LoftTheorems.

Context {K : Kernel}.

(** C5, as the code has it.  For four or more cross-sections, [loft]
    clones and promotes every section, takes the centers, accumulates the
    Euclidean distances between consecutive centers (first three
    coordinates) into [dist], one parameter per section starting at 0, and
    asks the kernel for the order-4 (degree-3) basis on the knot vector
    made of 0 four times, then [dist[2:-2]], then the last distance four
    times: of the interior distances, the second and the second-to-last
    entries of [dist] are left out.  The volume is then the solve on that
    basis with [dist] as interpolation parameters. *)
Theorem loft_knot_vector
    (surfaces : list loc) (h : heap) (promoted : list Surface.t)
    (x : list (list float)) (b3 : Basis) :
  4 <= length surfaces ->
  Forall2 (promoted_from h) surfaces promoted ->
  Forall2 (fun s' c => surface_center s' = Ok c) promoted x ->
  Forall (fun c => 3 <= length c) x ->
  let n := length surfaces in
  let dist := cumulative_distances x in
  let knot := repeat 0%float 4 ++ firstn (n - 4) (skipn 2 dist) ++ repeat (last dist 0%float) 4 in
  BSplineBasis (Some 4) (Some knot) None = Ok b3 ->
  loft surfaces h
  = bind (loft_solve (seq (length h) n) b3 dist) (fun v => ret (inl v)) (h ++ promoted)
  /\ length dist = n
  /\ hd 0%float dist = 0%float
  /\ length knot = n + 4.
Proof.
  intros Hn Hprom Hcent Hx n dist knot Hb3.
  pose proof (Forall2_length Hprom) as Lp. pose proof (Forall2_length Hcent) as Lx.
  assert (Ld : length dist = n).
  { unfold dist, cumulative_distances. cbn [length]. rewrite distances_from_length.
    unfold n. lia. }
  split; [|split; [exact Ld | split; [reflexivity|]]].
  - unfold loft.
    pose proof (clone_promote_run h surfaces promoted Hprom []) as Hclone.
    rewrite !app_nil_r in Hclone. rewrite (bind_run _ _ _ _ _ Hclone).
    rewrite length_seq. fold n.
    replace (n =? 2) with false by (symmetry; apply Nat.eqb_neq; unfold n; lia).
    unfold loft_parametrize. rewrite length_seq. fold n.
    replace (n =? 3) with false by (symmetry; apply Nat.eqb_neq; unfold n; lia).
    pose proof (centers_run promoted x Hcent h []) as Hc.
    rewrite !app_nil_r in Hc. rewrite <- Lp in Hc. fold n in Hc.
    rewrite !bind_assoc, (bind_run _ _ _ _ _ Hc).
    rewrite bind_assoc, (bind_run _ _ _ _ _ (dist_loop_run x _ Hx [] 0%float)).
    cbn [app]. fold (cumulative_distances x). fold dist.
    replace (loft_knot dist) with knot.
    + rewrite Hb3. mrun. reflexivity.
    + unfold knot, loft_knot. rewrite Ld.
      replace (n - 2 - 2) with (n - 4) by lia. reflexivity.
  - unfold knot. rewrite !length_app, !repeat_length, length_firstn, length_skipn, Ld. lia.
Qed.


(** C2, what the code does.  With exactly two cross-sections [loft] clones
    and promotes them and hands the two clones to
    [SurfaceFactory.edge_curves], the ruled-surface builder for curves, and
    returns its outcome: a surface object or an error, never the volume of
    [edge_surfaces]. *)
Theorem loft_two_calls_edge_curves
    (a b : loc) (h : heap) (sa sb sa' sb' : Surface.t) :
  nth_error h a = Some sa ->
  nth_error h b = Some sb ->
  surface_set_dimension sa 3 = Ok sa' ->
  surface_set_dimension sb 3 = Ok sb' ->
  loft [a; b] h
  = (match SurfaceFactory_edge_curves [sa'; sb'] with
     | Ok r => Ok (inr r)
     | Raise e => Raise e
     end, h ++ [sa'; sb'])
  /\ (forall v st, loft [a; b] h <> (Ok (inl v), st)).
Proof.
  intros Ha Hb Hda Hdb.
  assert (Hrun : loft [a; b] h
                 = (match SurfaceFactory_edge_curves [sa'; sb'] with
                    | Ok r => Ok (inr r)
                    | Raise e => Raise e
                    end, h ++ [sa'; sb'])).
  { unfold loft.
    assert (Hprom : Forall2 (promoted_from h) [a; b] [sa'; sb'])
      by (repeat constructor; [exists sa | exists sb]; split; assumption).
    pose proof (clone_promote_run h [a; b] [sa'; sb'] Hprom []) as Hclone.
    rewrite !app_nil_r in Hclone. rewrite (bind_run _ _ _ _ _ Hclone).
    cbn [length seq Nat.eqb].
    pose proof (deref_all_run [sa'; sb'] h []) as Hobjs.
    rewrite !app_nil_r in Hobjs. cbn [length seq] in Hobjs.
    rewrite (bind_run _ _ _ _ _ Hobjs).
    unfold lift, bind, ret. destruct (SurfaceFactory_edge_curves [sa'; sb']); reflexivity. }
  split; [exact Hrun|].
  intros v st. rewrite Hrun.
  destruct (SurfaceFactory_edge_curves [sa'; sb']); intros [=].
Qed.

End LoftTheorems.

(** ** Which objects factory code writes to *)

Lemma firstn_replace_nth {A : Type} (k l : nat) (x : A) (h : list A) :
  k <= l -> firstn k (replace_nth l x h) = firstn k h.
Proof.
  revert l h. induction k as [|k' IH]; intros l h Hl; [reflexivity|].
  destruct h as [|y h]; [now destruct l|]. destruct l as [|l]; [lia|].
  cbn. f_equal. apply IH. lia.
Qed.

Lemma replace_nth_length {A : Type} (l : nat) (x : A) (h : list A) :
  length (replace_nth l x h) = length h.
Proof. revert l. induction h as [|y h IH]; intros [|l]; cbn; auto. Qed.

Section Frame.

Variable k : nat.

Lemma wa_ret {A : Type} (a : A) (Q : A -> Prop) : Q a -> writes_above k (ret a) Q.
Proof. intros HQ h Hh. cbn. auto. Qed.

Lemma wa_raise {A : Type} (e : exn) (Q : A -> Prop) : writes_above k (raise e) Q.
Proof. intros h Hh. cbn. auto. Qed.

Lemma wa_lift {A : Type} (r : result A) (Q : A -> Prop) :
  (forall a, r = Ok a -> Q a) -> writes_above k (lift r) Q.
Proof. intros HQ h Hh. cbn. destruct r; auto. Qed.

Lemma wa_bind {A B : Type} (m : M A) (f : A -> M B) (Q : B -> Prop) :
  writes_above k m (fun a => writes_above k (f a) Q) -> writes_above k (bind m f) Q.
Proof.
  intros Hm h Hh. destruct (Hm h Hh) as (Hf & Hl & Hr). unfold bind.
  destruct (m h) as [[a|e] h1]; cbn in *.
  - destruct (Hr h1 Hl) as (Hf' & Hl' & Hr'). rewrite Hf', Hf. auto.
  - auto.
Qed.

Lemma wa_conseq {A : Type} (m : M A) (P Q : A -> Prop) :
  writes_above k m P -> (forall a, P a -> Q a) -> writes_above k m Q.
Proof.
  intros Hm HPQ h Hh. destruct (Hm h Hh) as (Hf & Hl & Hr). repeat split; try assumption.
  destruct (fst (m h)); auto.
Qed.

Lemma wa_seq {A B : Type} (m : M A) (f : A -> M B) (Q : B -> Prop) :
  writes_above k m (fun _ => True) ->
  (forall a, writes_above k (f a) Q) ->
  writes_above k (bind m f) Q.
Proof. intros Hm Hf. apply wa_bind. apply (wa_conseq m _ _ Hm). intros a _. apply Hf. Qed.

Lemma wa_deref (l : loc) (Q : Surface.t -> Prop) :
  (forall s, Q s) -> writes_above k (deref l) Q.
Proof. intros HQ h Hh. unfold deref. destruct (nth_error h l); cbn; auto. Qed.

Lemma wa_store (l : loc) (s : Surface.t) (Q : unit -> Prop) :
  k <= l -> Q tt -> writes_above k (store l s) Q.
Proof.
  intros Hl HQ h Hh. cbn. rewrite firstn_replace_nth, replace_nth_length by exact Hl. auto.
Qed.

Lemma wa_clone (l : loc) (Q : loc -> Prop) :
  (forall a, k <= a -> Q a) -> writes_above k (clone l) Q.
Proof.
  intros HQ h Hh. unfold clone, bind, deref. destruct (nth_error h l); cbn; auto.
  rewrite firstn_app, length_app. replace (k - length h) with 0 by lia.
  rewrite firstn_O, app_nil_r. repeat split; [lia | now apply HQ].
Qed.

Lemma wa_call (f : Surface.t -> result Surface.t) (l : loc) (Q : unit -> Prop) :
  k <= l -> Q tt -> writes_above k (call f l) Q.
Proof.
  intros Hl HQ. unfold call. apply wa_bind, wa_deref. intros s.
  apply wa_bind, wa_lift. intros s' _. now apply wa_store.
Qed.

Lemma wa_call2 (f : Surface.t -> Surface.t -> result (Surface.t * Surface.t))
      (l1 l2 : loc) (Q : unit -> Prop) :
  k <= l1 -> k <= l2 -> Q tt -> writes_above k (call2 f l1 l2) Q.
Proof.
  intros H1 H2 HQ. unfold call2. apply wa_bind, wa_deref. intros s1.
  apply wa_bind, wa_deref. intros s2. apply wa_bind, wa_lift. intros p _.
  apply wa_bind, wa_store; [exact H1|]. now apply wa_store.
Qed.

Lemma wa_for_each {A S : Type} (l : list A) (body : S -> A -> M S) (acc : S)
      (P : S -> Prop) (Q : S -> Prop) :
  P acc ->
  (forall a x, P a -> In x l -> writes_above k (body a x) P) ->
  (forall a, P a -> Q a) ->
  writes_above k (for_each l body acc) Q.
Proof.
  revert acc. induction l as [|x l IH]; intros acc HP Hbody HQ; cbn [for_each].
  - apply wa_ret. now apply HQ.
  - apply wa_bind. intros h Hh.
    destruct (Hbody acc x HP (or_introl eq_refl) h Hh) as (Hf & Hl & Hr).
    repeat split; try assumption.
    destruct (fst (body acc x h)); [|exact I].
    apply IH; [exact Hr | intros; apply Hbody; auto; now right | exact HQ].
Qed.

Lemma wa_map_m {A B : Type} (f : A -> M B) (l : list A) (P : B -> Prop)
      (Q : list B -> Prop) :
  (forall x, In x l -> writes_above k (f x) P) ->
  (forall ys, Forall P ys -> Q ys) ->
  writes_above k (map_m f l) Q.
Proof.
  revert Q. induction l as [|x l IH]; intros Q Hf HQ; cbn [map_m].
  - apply wa_ret. apply HQ. constructor.
  - apply wa_bind. intros h Hh.
    destruct (Hf x (or_introl eq_refl) h Hh) as (Hfr & Hl & Hr).
    repeat split; try assumption.
    destruct (fst (f x h)) as [y|]; [|exact I].
    apply wa_bind. apply IH; [intros; apply Hf; now right|].
    intros ys Hys. apply wa_ret. apply HQ. now constructor.
Qed.

Lemma wa_frame {A : Type} (m : M A) (h : heap) :
  k = length h -> writes_above k m (fun _ => True) ->
  exists added, snd (m h) = h ++ added.
Proof.
  intros -> Hm. destruct (Hm h (le_n _)) as (Hf & _ & _).
  exists (skipn (length h) (snd (m h))).
  rewrite <- (firstn_skipn (length h) (snd (m h))) at 1.
  now rewrite Hf, firstn_all.
Qed.

End Frame.

Ltac frame_step :=
  lazymatch goal with
  | |- writes_above _ (bind _ _) _ => apply wa_bind
  | |- writes_above _ (ret _) _ => apply wa_ret
  | |- writes_above _ (raise _) _ => apply wa_raise
  | |- writes_above _ (deref _) _ => apply wa_deref; intros ?
  | |- writes_above _ (lift _) _ => apply wa_lift; intros ? ?
  | |- writes_above _ (clone _) _ => apply wa_clone; intros ? ?
  | |- writes_above _ (call _ _) _ => apply wa_call; [assumption|]
  | |- writes_above _ (call2 _ _ _) _ => apply wa_call2; [assumption | assumption |]
  | |- writes_above ?k (for_each _ _ _) _ =>
      apply (wa_for_each k _ _ _ (fun _ => True) _ I); [intros ? ? _ _ | intros ? _]
  | |- True => exact I
  end.

Section FrameOfConstructors.

Context {K : Kernel}.
Variable k : nat.

Lemma wa_py_getitem (v : pyval) (i : nat) (Q : pyval -> Prop) :
  (forall a, Q a) -> writes_above k (py_getitem v i) Q.
Proof. intros HQ. destruct v; cbn [py_getitem]; repeat frame_step; apply HQ. Qed.

Lemma wa_py_len (v : pyval) (Q : nat -> Prop) :
  (forall n, Q n) -> writes_above k (py_len v) Q.
Proof. intros HQ. destruct v; cbn [py_len]; repeat frame_step; apply HQ. Qed.

Lemma wa_py_clone (v : pyval) (Q : loc -> Prop) :
  (forall a, k <= a -> Q a) -> writes_above k (py_clone v) Q.
Proof.
  intros HQ. destruct v; cbn [py_clone]; try apply wa_raise. now apply wa_clone.
Qed.

Lemma revolve_writes_above (surf : loc) (theta : float) :
  writes_above k (revolve surf theta) (fun _ => True).
Proof. unfold revolve, revolve_station. repeat frame_step. Qed.

Lemma cylinder_writes_above (r h : float) :
  writes_above k (cylinder r h) (fun _ => True).
Proof. unfold cylinder. repeat frame_step. Qed.

Lemma edge_surfaces_2_writes_above (surfaces : pyval) :
  writes_above k (edge_surfaces_2 surfaces) (fun _ => True).
Proof.
  unfold edge_surfaces_2.
  apply wa_bind, wa_py_getitem. intros s0.
  apply wa_bind, wa_py_clone. intros surf1 H1.
  apply wa_bind, wa_py_getitem. intros s1.
  apply wa_bind, wa_py_clone. intros surf2 H2.
  repeat frame_step.
  match goal with
  | |- context [np.shape ?c] => destruct (np.shape c) as [|n1 [|n2 [|d [|]]]]
  end; repeat frame_step.
Qed.

Lemma edge_surfaces_6_writes_above (surfaces : pyval) :
  writes_above k (edge_surfaces_6 surfaces) (fun _ => True).
Proof.
  unfold edge_surfaces_6.
  do 6 (apply wa_bind, wa_py_getitem; intros ?).
  do 3 (apply wa_seq; [apply edge_surfaces_2_writes_above | intros ?]).
  repeat frame_step.
Qed.

Lemma edge_surfaces_writes_above (args : list pyval) :
  writes_above k (edge_surfaces args) (fun _ => True).
Proof.
  unfold edge_surfaces. apply wa_bind.
  assert (Hsel : forall Q : pyval -> Prop, (forall a, Q a) ->
            writes_above k (if length args =? 1 then py_getitem (PyList args) 0
                            else ret (PyList args)) Q).
  { intros Q HQ. destruct (length args =? 1); [now apply wa_py_getitem | now apply wa_ret]. }
  apply Hsel. intros surfaces.
  apply wa_bind, wa_py_len. intros n.
  destruct (n =? 2); [apply edge_surfaces_2_writes_above|].
  apply wa_bind, wa_py_len. intros n'.
  destruct (n' =? 6); [apply edge_surfaces_6_writes_above | apply wa_raise].
Qed.

Lemma list_getitem_Forall {A : Type} (P : A -> Prop) (l : list A) (i : nat) (a : A) :
  Forall P l -> list_getitem l i = Ok a -> P a.
Proof.
  intros HP. unfold list_getitem. destruct (nth_error l i) eqn:E; intros [= <-].
  apply nth_error_In in E. revert E. now apply Forall_forall.
Qed.

Lemma loft_solve_writes_above (surfaces : list loc) (basis3 : Basis) (dist : list float) :
  Forall (fun l => k <= l) surfaces ->
  writes_above k (loft_solve surfaces basis3 dist) (fun _ => True).
Proof.
  intros Hs. unfold loft_solve.
  repeat first
    [ match goal with
      | H : list_getitem surfaces _ = Ok ?l |- _ =>
          apply (list_getitem_Forall _ _ _ _ Hs) in H
      end
    | frame_step ].
Qed.

Lemma loft_writes_above (surfaces : list loc) :
  writes_above k (loft surfaces) (fun _ => True).
Proof.
  unfold loft. apply wa_bind.
  apply (wa_map_m k _ _ (fun l => k <= l)).
  - intros s _. repeat frame_step. assumption.
  - intros clones Hclones. cbn beta.
    match goal with |- context [if ?b then _ else _] => destruct b end.
    + apply wa_bind, (wa_map_m k _ _ (fun _ => True)).
      * intros; now apply wa_deref.
      * intros; repeat frame_step.
    + apply wa_bind. unfold loft_parametrize.
      match goal with |- context [if ?b then _ else _] => destruct b end.
      * repeat frame_step.
        apply (wa_conseq k _ (fun _ => True));
          [now apply loft_solve_writes_above | intros; repeat frame_step].
      * apply wa_bind, (wa_map_m k _ _ (fun _ => True)).
        -- intros; repeat frame_step.
        -- intros x _. cbn beta. unfold loft_dist_step. repeat frame_step.
           apply (wa_conseq k _ (fun _ => True));
             [now apply loft_solve_writes_above | intros; repeat frame_step].
Qed.

End FrameOfConstructors.

(** * The factory at work on concrete inputs *)

Import Sample.

Ltac run := vm_compute; reflexivity.

Ltac below8 :=
  let j := fresh "j" in
  let Hj := fresh "Hj" in
  intros j Hj;
  do 8 (destruct j as [|j]; [run|]);
  exfalso; lia.

(** [revolve] on the planar patch: the volume has 8 * 4 control points and
    the caller's patch is still in the store, followed by the clone. *)
Lemma revolve_patch :
  exists v,
    @revolve K0 0 1%float [patch] = (Ok v, [patch] ++ [turned patch 8])
    /\ np.shape (revolve_lattice (turned patch) (2 * 2)) = [8 * (2 * 2); 4].
Proof.
  eexists.
  refine (let H := @revolve_eight_stations K0 0 1%float [patch] patch _ (turned patch)
                     2 2 _ _ _ _ _ _ _ _ _ _ _ _ in conj (proj1 H) (proj1 (proj2 H)));
    try below8; run.
Defined.

(** [revolve] on the planar patch by any angle: one volume, on the basis of
    the full turn. *)
Lemma revolve_patch_any_angle :
  exists v,
    @revolve K0 0 1%float [patch] = @revolve K0 0 (2 * pi)%float [patch]
    /\ (forall theta, @revolve K0 0 theta [patch] = (Ok v, [patch] ++ [turned patch 8]))
    /\ np.shape (revolve_lattice (turned patch) (2 * 2)) = [8 * (2 * 2); 4].
Proof.
  eexists.
  refine (let H := @revolve_ignores_theta K0 0 [patch] patch _ (turned patch)
                     2 2 _ full_turn _ _ _ _ _ _ _ _ _ _ in
          conj (proj1 (proj1 H 0 1%float [patch]))
               (conj (proj1 (proj2 H)) (proj1 (proj2 (proj2 (proj2 H))))));
    try below8; run.
Defined.

(** [cylinder(1, 2)] in the reference kernel. *)
Lemma cylinder_unit :
  exists v, @cylinder K0 1%float 2%float [] = (Ok v, []).
Proof.
  eexists.
  refine (proj1 (@cylinder_two_layers K0 1%float 2%float [] _ _ _ _ _ _ _)).
  - run.
  - repeat constructor.
  - run.
  - run.
Defined.

(** The ruled volume between the bottom and the top face of the unit cube. *)
Lemma ruled_bottom_top :
  exists v,
    @edge_surfaces K0 [PySurface 4; PySurface 5] cube_faces = (Ok v, cube_faces ++ [wmin; wmax])
    /\ np.get_layer (Volume.controlpoints v) 0 = Ok (Surface.controlpoints wmin)
    /\ np.get_layer (Volume.controlpoints v) 1 = Ok (Surface.controlpoints wmax).
Proof.
  destruct (@edge_surfaces_two_layers K0 4 5 cube_faces wmin wmax wmin wmax
              (ruled_volume wmin wmax lin) lin)
    as (v & Hrun & _ & _ & _ & _ & G0 & G1 & _).
  - reflexivity.
  - reflexivity.
  - split; [run|]. split; [exists 2, 2, 3; split; reflexivity|]. split; reflexivity.
  - run.
  - run.
  - exists v. repeat split; assumption.
Defined.

Ltac unified_faces :=
  split; [run|]; split; [exists 2, 2, 3; split; reflexivity|]; split; reflexivity.

(** The Coons blend of the six faces of the unit cube is the unit cube. *)
Lemma coons_unit_cube :
  @edge_surfaces K0 (map PySurface [0; 1; 2; 3; 4; 5]) cube_faces
  = (Ok unit_cube_volume, cube_faces ++ [umin; umax; vmin; vmax; wmin; wmax]).
Proof.
  refine (eq_trans
            (proj1 (@edge_surfaces_coons_sum K0 0 1 2 3 4 5 cube_faces
                      umin umax vmin vmax wmin wmax umin umax vmin vmax wmin wmax
                      unit_cube_volume unit_cube_volume unit_cube_volume unit_cube_volume
                      unit_cube_volume lin
                      _ _ _ _ _ _ _ _ _ _ _ _ _ _ _ _ _ _ _)) _);
    try reflexivity; try unified_faces; run.
Defined.

(** The count check on the same faces, and on a lone strip of 3 x 2 control
    points. *)
Lemma count_check_unit_cube :
  @edge_surfaces K0 [PySurface 0; PySurface 1; PySurface 2] cube_faces
  = (Raise (ValueError "Requires two or six input surfaces"), cube_faces)
  /\ @edge_surfaces K0 [PyList (map PySurface [0; 1; 2; 3; 4; 5])] cube_faces
     = (Ok unit_cube_volume, cube_faces ++ [umin; umax; vmin; vmax; wmin; wmax])
  /\ @edge_surfaces K0 [PySurface 0] [strip]
     = (Raise (AttributeError "object has no attribute 'clone'"), [strip]).
Proof.
  destruct (@edge_surfaces_count_check K0 0 1 2 3 4 5 cube_faces
              umin umax vmin vmax wmin wmax umin umax vmin vmax wmin wmax
              unit_cube_volume unit_cube_volume unit_cube_volume unit_cube_volume
              unit_cube_volume lin)
    as (Hcount & _ & _ & _ & Hsix & _ & Hlone);
    try reflexivity; try unified_faces; try run.
  split; [|split].
  - apply (Hcount [PySurface 0; PySurface 1; PySurface 2] cube_faces 3);
      [reflexivity | discriminate | discriminate].
  - refine (eq_trans Hsix _). run.
  - apply (Hlone 0 [strip] strip (fun i => nth i (RefKernel.surface_iter strip) []));
      [reflexivity | run |].
    intros i Hi. do 6 (destruct i as [|i]; [run|]). exfalso; lia.
Defined.

(** Lofting the four unit squares at heights 0, 1, 2, 3: the parameters are
    0, 1, 2, 3 and the knot vector has eight entries. *)
Lemma loft_four_sections :
  @loft K0 [0; 1; 2; 3] sections
  = bind (@loft_solve K0 [4; 5; 6; 7]
            (mkBasis 4 [0; 0; 0; 0; 3; 3; 3; 3]%float (-1)) [0; 1; 2; 3]%float)
         (fun v => ret (inl v)) (sections ++ sections).
Proof.
  refine (eq_trans
            (proj1 (@loft_knot_vector K0 [0; 1; 2; 3] sections sections
                      [[0.5; 0.5; 0]; [0.5; 0.5; 1]; [0.5; 0.5; 2]; [0.5; 0.5; 3]]%float
                      (mkBasis 4 [0; 0; 0; 0; 3; 3; 3; 3]%float (-1)) _ _ _ _ _)) _).
  - cbn. lia.
  - repeat constructor; eexists; (split; [reflexivity | run]).
  - repeat constructor; run.
  - repeat constructor; cbn; lia.
  - run.
  - run.
Defined.


(** Lofting two faces of the unit cube: the call is handed to the curve
    factory. *)
Lemma loft_two_faces :
  @loft K0 [4; 5] cube_faces
  = (Raise (ValueError "too many values to unpack (expected 2)"), cube_faces ++ [wmin; wmax]).
Proof.
  refine (eq_trans (proj1 (@loft_two_calls_edge_curves K0 4 5 cube_faces wmin wmax wmin wmax
                             _ _ _ _)) _);
    run.
Defined.

(** C1 holds for three constructors and fails on [extrude].  For every
    kernel and every input, [revolve], [edge_surfaces] and [loft] leave every
    object of the caller's store as it was, whether they return or raise:
    they only add their clones.  [extrude] works on the caller's own
    surface: a planar patch comes back promoted to three dimensions, with a
    zero [z] added to every control point; and a surface at height 0.5
    extruded by 2^60 comes back at height 0, the translation and its inverse
    not cancelling in floating point. *)
Theorem inputs_unchanged_except_by_extrude :
  (forall (K : Kernel) (surf : loc) (theta : float) (h : heap),
      exists added, snd (revolve surf theta h) = h ++ added)
  /\ (forall (K : Kernel) (args : list pyval) (h : heap),
         exists added, snd (edge_surfaces args h) = h ++ added)
  /\ (forall (K : Kernel) (surfaces : list loc) (h : heap),
         exists added, snd (loft surfaces h) = h ++ added)
  /\ (exists v s,
         @extrude K0 0 1%float [patch] = (Ok v, [s])
         /\ Surface.dimension patch = 2
         /\ Surface.dimension s = 3
         /\ np.data (Surface.controlpoints patch) = [1; 0; 1; 1; 2; 0; 2; 1]%float
         /\ np.data (Surface.controlpoints s) = [1; 0; 0; 1; 1; 0; 2; 0; 0; 2; 1; 0]%float)
  /\ (exists v s,
         @extrude K0 0 far [low_section] = (Ok v, [s])
         /\ lattice_point (Surface.controlpoints low_section) 0 0 = [0; 0; 0.5]%float
         /\ lattice_point (Surface.controlpoints s) 0 0 = [0; 0; 0]%float).
Proof.
  split; [|split; [|split; [|split]]].
  - intros K surf theta h. apply (wa_frame (length h)); [reflexivity|].
    apply revolve_writes_above.
  - intros K args h. apply (wa_frame (length h)); [reflexivity|].
    apply edge_surfaces_writes_above.
  - intros K surfaces h. apply (wa_frame (length h)); [reflexivity|].
    apply loft_writes_above.
  - eexists. eexists. split; [vm_compute; reflexivity|]. repeat split.
  - eexists. eexists. split; [vm_compute; reflexivity|]. split; vm_compute; reflexivity.
Qed.

(** Against C5: through four sections at heights 0, 1, 2, 3 the parameters
    are 0, 1, 2, 3, whose interior entries are 1 and 2, yet the basis of the
    new direction has the knot vector [0,0,0,0,3,3,3,3], with no interior
    knot at all. *)
Lemma loft_four_sections_has_no_interior_knot :
  (exists v st,
      @loft K0 [0; 1; 2; 3] sections = (Ok (inl v), st)
      /\ snd (Volume.bases v) = mkBasis 4 [0; 0; 0; 0; 3; 3; 3; 3]%float (-1)
      /\ interior_knots (snd (Volume.bases v)) = [])
  /\ fst (@loft_parametrize K0 [0; 1; 2; 3] sections)
     = Ok (mkBasis 4 [0; 0; 0; 0; 3; 3; 3; 3]%float (-1), [0; 1; 2; 3]%float)
  /\ removelast (tl [0; 1; 2; 3]%float) = [1; 2]%float.
Proof.
  split; [|split; [vm_compute; reflexivity | reflexivity]].
  eexists. eexists. split; [vm_compute; reflexivity|]. split; reflexivity.
Qed.

(** A call with one argument, a surface of 3 x 2 = 6 control points, ends
    in [AttributeError]. *)
Lemma edge_surfaces_lone_strip :
  @surface_len K0 strip = 6
  /\ @edge_surfaces K0 [PySurface 0] [strip]
     = (Raise (AttributeError "object has no attribute 'clone'"), [strip]).
Proof. split; vm_compute; reflexivity. Qed.

(** Against C9: the rational patch of weight 2 is revolved; the even
    stations 0 and 2 of the volume carry the weight 2 of the profile, not
    1.0, and the odd station 1 carries 2/sqrt(2).  The first turn of the
    loop already writes the weight 2 into the first rows of the array. *)
Lemma revolve_even_stations_carry_the_weight :
  weights (Surface.controlpoints heavy) = [2; 2; 2; 2]%float
  /\ (exists v st,
         @revolve K0 0 (2 * pi)%float [heavy] = (Ok v, st)
         /\ rbind (np.get_layer (Volume.controlpoints v) 0) (fun a => Ok (weights a))
            = Ok [2; 2; 2; 2]%float
         /\ rbind (np.get_layer (Volume.controlpoints v) 2) (fun a => Ok (weights a))
            = Ok [2; 2; 2; 2]%float
         /\ rbind (np.get_layer (Volume.controlpoints v) 1) (fun a => Ok (weights a))
            = Ok (repeat (2 * (1 / sqrt 2))%float 4))
  /\ (exists cp st,
         @revolve_station K0 0 4 (np.zeros [8 * 4; 4]) 0 [heavy] = (Ok cp, st)
         /\ firstn 4 (weights cp) = [2; 2; 2; 2]%float).
Proof.
  split; [reflexivity|]. split.
  - eexists. eexists. split; [vm_compute; reflexivity|].
    split; [|split]; vm_compute; reflexivity.
  - eexists. eexists. split; vm_compute; reflexivity.
Qed.


(** * Further properties of the constructors *)

(** ** extrude *)

Lemma replace_nth_same {A : Type} (h : list A) (l : nat) (x : A) :
  nth_error h l = Some x -> replace_nth l x h = h.
Proof.
  revert l. induction h as [|y h IH]; intros [|l] H; try discriminate; cbn in *.
  - now injection H as ->.
  - f_equal. now apply IH.
Qed.

Lemma nth_error_replace_nth_other {A : Type} (h : list A) (l l' : nat) (x : A) :
  l' <> l -> nth_error (replace_nth l x h) l' = nth_error h l'.
Proof.
  revert l l'. induction h as [|y h IH]; intros [|l] [|l'] H; cbn; try reflexivity; try lia.
  apply IH. lia.
Qed.

Section WritesOnly.

Variable l : loc.

Lemma wo_ret {A : Type} (a : A) : writes_only l (ret a).
Proof. intros h. cbn. auto. Qed.

Lemma wo_lift {A : Type} (r : result A) : writes_only l (lift r).
Proof. intros h. cbn. auto. Qed.

Lemma wo_deref (l0 : loc) : writes_only l (deref l0).
Proof. intros h. unfold deref. destruct (nth_error h l0); cbn; auto. Qed.

Lemma wo_store (s : Surface.t) : writes_only l (store l s).
Proof.
  intros h. cbn. split; [apply replace_nth_length|].
  intros l' Hl'. now apply nth_error_replace_nth_other.
Qed.

Lemma wo_bind {A B : Type} (m : M A) (f : A -> M B) :
  writes_only l m -> (forall a, writes_only l (f a)) -> writes_only l (bind m f).
Proof.
  intros Hm Hf h. destruct (Hm h) as [Hlen Hnth]. unfold bind.
  destruct (m h) as [[a|e] h1]; cbn in *; [|auto].
  destruct (Hf a h1) as [Hlen' Hnth']. split; [congruence|].
  intros l' Hl'. rewrite Hnth', Hnth by exact Hl'. reflexivity.
Qed.

Lemma wo_call (f : Surface.t -> result Surface.t) : writes_only l (call f l).
Proof.
  unfold call. apply wo_bind; [apply wo_deref|]. intros s.
  apply wo_bind; [apply wo_lift|]. intros s'. apply wo_store.
Qed.

Lemma wo_for_each {A S : Type} (xs : list A) (body : S -> A -> M S) (acc : S) :
  (forall a x, writes_only l (body a x)) -> writes_only l (for_each xs body acc).
Proof.
  intros Hbody. revert acc. induction xs as [|x xs IH]; intros acc; cbn [for_each].
  - apply wo_ret.
  - apply wo_bind; [apply Hbody | exact IH].
Qed.

End WritesOnly.

Section ExtrudeTheorems.

Context {K : Kernel}.

(** X1. [extrude(surf, h)] returns the volume the kernel builds from the
    surface's two bases (read after the sweep), the basis
    [BSplineBasis(2)], the surface's own rational flag and a list of
    control points in two layers: the control points of the surface once
    promoted to three dimensions, then the control points of the surface
    translated by [(0, 0, h)].  The caller's object ends as the surface
    promoted, translated and translated back. *)
Theorem extrude_two_layers
    (surf : loc) (d : float) (h : heap) (s0 s1 s2 s3 : Surface.t) (b : Basis) (v : Volume.t) :
  nth_error h surf = Some s0 ->
  surface_set_dimension s0 3 = Ok s1 ->
  surface_iadd s1 [0; 0; d]%float = Ok s2 ->
  surface_isub s2 [0; 0; d]%float = Ok s3 ->
  BSplineBasis (Some 2) None None = Ok b ->
  Volume_init (Some (fst (Surface.bases s3))) (Some (snd (Surface.bases s3))) (Some b)
              (Some (PyRows (surface_iter s1 ++ surface_iter s2))) (Surface.rational s3) = Ok v ->
  extrude surf d h = (Ok v, replace_nth surf s3 h)
  /\ nth_error (snd (extrude surf d h)) surf = Some s3.
Proof.
  intros H0 H1 H2 H3 Hb Hv.
  rewrite (extrude_run surf d h s0 s1 s2 s3 b v H0 H1 H2 H3 Hb Hv).
  split; [reflexivity|]. cbn [snd]. now apply nth_error_replace_nth with (x := s0).
Qed.

(** X2. When the surface is already three-dimensional (promotion returns
    it as it is) and the kernel's back-translation undoes the translation
    exactly, [extrude] leaves the whole store as it found it, whether or
    not the volume is then built. *)
Theorem extrude_restores_input
    (surf : loc) (d : float) (h : heap) (s0 s2 : Surface.t) :
  nth_error h surf = Some s0 ->
  surface_set_dimension s0 3 = Ok s0 ->
  surface_iadd s0 [0; 0; d]%float = Ok s2 ->
  surface_isub s2 [0; 0; d]%float = Ok s0 ->
  snd (extrude surf d h) = h.
Proof.
  intros H0 H1 H2 H3. unfold extrude.
  rewrite (bind_run _ _ _ _ _ (call_run (fun s => surface_set_dimension s 3) _ _ _ _ H0 H1)).
  rewrite (replace_nth_same h surf s0 H0).
  rewrite (bind_run _ _ _ _ _ (deref_run _ _ _ H0)).
  rewrite (bind_run _ _ _ _ _ (for_each_copy _ _ _)).
  rewrite (bind_run _ _ _ _ _
             (call_run (fun s => surface_iadd s [0; 0; d]%float) _ _ _ _ H0 H2)).
  pose proof (nth_error_replace_nth h surf s0 s2 H0) as Hs2.
  rewrite (bind_run _ _ _ _ _ (deref_run _ _ _ Hs2)).
  rewrite (bind_run _ _ _ _ _ (for_each_copy _ _ _)).
  rewrite (bind_run _ _ _ _ _
             (call_run (fun s => surface_isub s [0; 0; d]%float) _ _ _ _ Hs2 H3)).
  rewrite replace_nth_twice, (replace_nth_same h surf s0 H0).
  rewrite (bind_run _ _ _ _ _ (deref_run _ _ _ H0)).
  unfold bind, lift. destruct (BSplineBasis (Some 2) None None); reflexivity.
Qed.

(** X3. [extrude] works on its argument only: whether it returns or
    raises, the store holds as many objects as before and every object
    other than the extruded surface is as it was. *)
Theorem extrude_confined_to_argument (surf : loc) (d : float) (h : heap) :
  length (snd (extrude surf d h)) = length h
  /\ (forall l, l <> surf -> nth_error (snd (extrude surf d h)) l = nth_error h l).
Proof.
  assert (H : writes_only surf (extrude surf d)).
  { unfold extrude.
    repeat first
      [ apply wo_call | apply wo_deref | apply wo_lift | apply wo_ret
      | apply wo_for_each; intros ? ?
      | apply wo_bind; [|intros ?] ]. }
  exact (H h).
Qed.

End ExtrudeTheorems.

(** ** edge_surfaces *)

Section EdgeSurfacesArguments.

Context {K : Kernel}.

(** X4. A single collection argument is unwrapped once: for every
    collection whose length is not 1, [edge_surfaces(collection)] is the
    same computation as [edge_surfaces] called with the items as separate
    arguments.  A collection holding exactly one item is not unwrapped a
    second time and is rejected with [ValueError], whatever the item. *)
Theorem edge_surfaces_collection_is_spread :
  (forall (args : list pyval) (st : heap),
      length args <> 1 -> edge_surfaces [PyList args] st = edge_surfaces args st)
  /\ (forall (x : pyval) (st : heap),
         edge_surfaces [PyList [x]] st
         = (Raise (ValueError "Requires two or six input surfaces"), st)).
Proof.
  split.
  - intros args st Hlen. unfold edge_surfaces. cbn [length Nat.eqb].
    replace (length args =? 1) with false by (symmetry; now apply Nat.eqb_neq).
    reflexivity.
  - intros x st. reflexivity.
Qed.

(** X5. Called with one argument that is not a collection (a lone surface,
    a control point, a number), [edge_surfaces] never returns a volume: it
    raises, and the store is as before. *)
Theorem edge_surfaces_lone_argument_fails (x : pyval) (st : heap) :
  is_collection x = false ->
  exists e, edge_surfaces [x] st = (Raise e, st).
Proof.
  intros Hx. unfold edge_surfaces. cbn [length Nat.eqb].
  unfold py_getitem at 1, list_getitem. cbn [nth_error]. mrun.
  destruct x as [l|items|p|f]; [| discriminate | |].
  - destruct (nth_error st l) as [s|] eqn:Hl.
    2: { cbn [py_len]. unfold bind, deref. rewrite Hl. eexists; reflexivity. }
    rewrite (bind_run _ _ _ _ _ (py_len_surface_run l st s Hl)).
    destruct (surface_len s =? 2).
    + unfold edge_surfaces_2. cbn [py_getitem]. mrun.
      rewrite (bind_run _ _ _ _ _ (deref_run _ _ _ Hl)).
      destruct (surface_getitem s 0); [mrun|]; eexists; reflexivity.
    + rewrite (bind_run _ _ _ _ _ (py_len_surface_run l st s Hl)).
      destruct (surface_len s =? 6); [|eexists; reflexivity].
      unfold edge_surfaces_6. cbn [py_getitem]. mrun.
      do 6 (rewrite (bind_run _ _ _ _ _ (deref_run _ _ _ Hl));
            match goal with
            | |- context [surface_getitem s ?i] => destruct (surface_getitem s i)
            end; [mrun | eexists; reflexivity]).
      unfold edge_surfaces_2 at 1. unfold py_getitem at 1, list_getitem.
      cbn [nth_error]. mrun. eexists. reflexivity.
  - cbn [py_len]. mrun.
    destruct (length p =? 2) eqn:H2.
    + unfold edge_surfaces_2. cbn [py_getitem]. mrun.
      destruct (list_getitem p 0); [mrun|]; eexists; reflexivity.
    + cbn [py_len]. mrun. destruct (length p =? 6); [|eexists; reflexivity].
      unfold edge_surfaces_6. cbn [py_getitem]. mrun.
      do 6 (match goal with
            | |- context [list_getitem p ?i] => destruct (list_getitem p i)
            end; [mrun | eexists; reflexivity]).
      unfold edge_surfaces_2 at 1. unfold py_getitem at 1, list_getitem.
      cbn [nth_error]. mrun. eexists. reflexivity.
  - eexists; reflexivity.
Qed.


End EdgeSurfacesArguments.

(** ** loft through three sections *)

Section LoftThree.

Context {K : Kernel}.

(** X7. With exactly three cross-sections [loft] does not measure the
    sections: after cloning and promoting them it takes the quadratic
    basis [BSplineBasis(3)] for the new direction and that basis's Greville
    points as the three interpolation parameters, and the volume is the
    solve on them.  No center and no distance enters. *)
Theorem loft_three_sections
    (surfaces : list loc) (h : heap) (promoted : list Surface.t) (b3 : Basis)
    (w : list float) :
  length surfaces = 3 ->
  Forall2 (promoted_from h) surfaces promoted ->
  BSplineBasis (Some 3) None None = Ok b3 ->
  basis_greville b3 = Ok w ->
  loft surfaces h
  = bind (loft_solve (seq (length h) 3) b3 w) (fun v => ret (inl v)) (h ++ promoted)
  /\ (forall st, loft_parametrize (seq (length h) 3) st = (Ok (b3, w), st)).
Proof.
  intros Hn Hprom Hb3 Hw.
  assert (Hpar : forall st, loft_parametrize (seq (length h) 3) st = (Ok (b3, w), st)).
  { intros st. unfold loft_parametrize. rewrite length_seq. cbn [Nat.eqb].
    rewrite Hb3. mrun. rewrite Hw. mrun. reflexivity. }
  split; [|exact Hpar].
  unfold loft.
  pose proof (clone_promote_run h surfaces promoted Hprom []) as Hclone.
  rewrite !app_nil_r in Hclone. rewrite (bind_run _ _ _ _ _ Hclone).
  rewrite length_seq, Hn. cbn [Nat.eqb].
  rewrite (bind_run _ _ _ _ _ (Hpar _)). reflexivity.
Qed.

End LoftThree.

(** ** revolve and the rest of the store *)

Section OnLast.

Lemma ol_ret {A : Type} (a : A) : on_last (fun _ => ret a).
Proof. intros s. exists (Ok a), s. reflexivity. Qed.

Lemma ol_lift {A : Type} (r : result A) : on_last (fun _ => lift r).
Proof. intros s. exists r, s. reflexivity. Qed.

Lemma ol_deref : on_last deref.
Proof. intros s. exists (Ok s), s. intros h. apply deref_last. Qed.

Lemma ol_call (f : Surface.t -> result Surface.t) : on_last (call f).
Proof.
  intros s. destruct (f s) as [s'|e] eqn:Hf.
  - exists (Ok tt), s'. intros h. now apply call_last.
  - exists (Raise e), s. intros h. unfold call.
    rewrite (bind_run _ _ _ _ _ (deref_last _ _)). unfold bind, lift. now rewrite Hf.
Qed.

Lemma ol_bind {A B : Type} (m : loc -> M A) (f : loc -> A -> M B) :
  on_last m -> (forall a, on_last (fun l => f l a)) ->
  on_last (fun l => bind (m l) (f l)).
Proof.
  intros Hm Hf s. destruct (Hm s) as (r & s1 & H1). destruct r as [a|e].
  - destruct (Hf a s1) as (r2 & s2 & H2). exists r2, s2. intros h.
    unfold bind. rewrite H1. apply H2.
  - exists (Raise e), s1. intros h. unfold bind. now rewrite H1.
Qed.

Lemma ol_for_each {A S : Type} (xs : list A) (body : loc -> S -> A -> M S) :
  (forall acc x, on_last (fun l => body l acc x)) ->
  forall acc, on_last (fun l => for_each xs (body l) acc).
Proof.
  intros Hbody. induction xs as [|x xs IH]; intros acc; cbn [for_each].
  - apply ol_ret.
  - apply (ol_bind (fun l => body l acc x) (fun l acc' => for_each xs (body l) acc'));
      [apply Hbody | exact IH].
Qed.

Lemma clone_then_on_last {A : Type} (body : loc -> M A) (l l' : loc) (h h' : heap) :
  on_last body -> nth_error h l = nth_error h' l' ->
  fst (bind (clone l) body h) = fst (bind (clone l') body h').
Proof.
  intros Hol Hnth. destruct (nth_error h l) as [s|] eqn:E.
  - rewrite (bind_run _ _ _ _ _ (clone_run _ _ _ E)).
    rewrite (bind_run _ _ _ _ _ (clone_run _ _ _ (eq_sym Hnth))).
    destruct (Hol s) as (r & s' & H). now rewrite !H.
  - unfold clone, bind, deref. rewrite <- Hnth, E. reflexivity.
Qed.

End OnLast.

Ltac on_last_step :=
  first [ apply ol_call | apply ol_deref | apply ol_lift | apply ol_ret
        | apply ol_for_each; intros ? ?
        | apply ol_bind; [|intros ?] ].

Section RevolveLocality.

Context {K : Kernel}.

Lemma revolve_after_clone (theta : float) :
  exists body : loc -> M Volume.t,
    on_last body /\ forall surf h, revolve surf theta h = bind (clone surf) body h.
Proof.
  eexists. split; cycle 1.
  - intros surf h. unfold revolve. reflexivity.
  - unfold revolve_station. cbv zeta. repeat on_last_step.
Qed.

(** X8. The outcome of [revolve] is a function of the profile surface
    alone: the same surface object found at another place of another
    store, swept by another angle, gives the same volume or the same
    error.  In particular a second call on the same reference, made from
    the store the first call left, repeats the outcome of the first. *)
Theorem revolve_depends_on_profile_only
    (surf surf' : loc) (theta theta' : float) (h h' : heap) :
  nth_error h surf = nth_error h' surf' ->
  fst (revolve surf theta h) = fst (revolve surf' theta' h')
  /\ fst (revolve surf theta (snd (revolve surf theta h))) = fst (revolve surf theta h).
Proof.
  intros Hnth. destruct (revolve_after_clone theta) as (body & Hol & Hrev).
  change (revolve surf' theta' h') with (revolve surf' theta h').
  split.
  - rewrite !Hrev. now apply clone_then_on_last.
  - assert (Hsame : nth_error (snd (revolve surf theta h)) surf = nth_error h surf).
    { destruct (nth_error h surf) as [s|] eqn:E.
      - destruct (wa_frame (length h) (revolve surf theta) h eq_refl
                    (revolve_writes_above (length h) surf theta)) as [added ->].
        now apply nth_error_app_left.
      - rewrite Hrev. unfold clone, bind, deref. rewrite E. cbn [snd]. exact E. }
    refine (eq_trans (f_equal fst (Hrev surf _)) _).
    refine (eq_trans _ (eq_sym (f_equal fst (Hrev surf _)))).
    now apply clone_then_on_last.
Qed.

End RevolveLocality.

(** ** How many objects a constructor adds *)

Section GrowsBy.

Lemma gb_ret {A : Type} (a : A) : grows_by 0 (ret a).
Proof. intros h. cbn. lia. Qed.

Lemma gb_raise {A : Type} (e : exn) : grows_by 0 (@raise A e).
Proof. intros h. cbn. lia. Qed.

Lemma gb_lift {A : Type} (r : result A) : grows_by 0 (lift r).
Proof. intros h. cbn. lia. Qed.

Lemma gb_deref (l : loc) : grows_by 0 (deref l).
Proof. intros h. unfold deref. destruct (nth_error h l); cbn; lia. Qed.

Lemma gb_store (l : loc) (s : Surface.t) : grows_by 0 (store l s).
Proof. intros h. cbn. rewrite replace_nth_length. lia. Qed.

Lemma gb_weaken {A : Type} (n n' : nat) (m : M A) :
  n <= n' -> grows_by n m -> grows_by n' m.
Proof. intros Hn Hm h. destruct (Hm h). lia. Qed.

Lemma gb_bind {A B : Type} (n k : nat) (m : M A) (f : A -> M B) :
  grows_by n m -> (forall a, grows_by k (f a)) -> grows_by (n + k) (bind m f).
Proof.
  intros Hm Hf h. destruct (Hm h) as [Hlo Hhi]. unfold bind.
  destruct (m h) as [[a|e] h1]; cbn in *; [|lia].
  destruct (Hf a h1). lia.
Qed.

Lemma gb_bind0 {A B : Type} (k : nat) (m : M A) (f : A -> M B) :
  grows_by 0 m -> (forall a, grows_by k (f a)) -> grows_by k (bind m f).
Proof. intros Hm Hf. exact (gb_bind 0 k m f Hm Hf). Qed.

Lemma gb_clone (l : loc) : grows_by 1 (clone l).
Proof.
  intros h. unfold clone, bind, deref. destruct (nth_error h l); cbn; [|lia].
  rewrite length_app. cbn. lia.
Qed.

Lemma gb_call (f : Surface.t -> result Surface.t) (l : loc) : grows_by 0 (call f l).
Proof.
  unfold call. apply gb_bind0; [apply gb_deref|]. intros s.
  apply gb_bind0; [apply gb_lift|]. intros s'. apply gb_store.
Qed.

Lemma gb_call2 (f : Surface.t -> Surface.t -> result (Surface.t * Surface.t))
      (l1 l2 : loc) : grows_by 0 (call2 f l1 l2).
Proof.
  unfold call2. apply gb_bind0; [apply gb_deref|]. intros s1.
  apply gb_bind0; [apply gb_deref|]. intros s2.
  apply gb_bind0; [apply gb_lift|]. intros p.
  apply gb_bind0; [apply gb_store|]. intros _. apply gb_store.
Qed.

Lemma gb_for_each {A S : Type} (xs : list A) (body : S -> A -> M S) (acc : S) :
  (forall a x, grows_by 0 (body a x)) -> grows_by 0 (for_each xs body acc).
Proof.
  intros Hbody. revert acc. induction xs as [|x xs IH]; intros acc; cbn [for_each].
  - apply gb_ret.
  - apply gb_bind0; [apply Hbody | exact IH].
Qed.

Lemma gb_map_m {A B : Type} (c : nat) (f : A -> M B) (xs : list A) :
  (forall x, grows_by c (f x)) -> grows_by (c * length xs) (map_m f xs).
Proof.
  intros Hf. induction xs as [|x xs IH]; cbn [map_m length].
  - apply (gb_weaken 0); [lia | apply gb_ret].
  - apply (gb_weaken (c + (c * length xs + 0))); [lia|].
    apply gb_bind; [apply Hf|]. intros y.
    apply gb_bind; [exact IH|]. intros ys. apply gb_ret.
Qed.

Lemma frame_and_bound {A : Type} (m : M A) (n : nat) (h : heap) :
  writes_above (length h) m (fun _ => True) -> grows_by n m ->
  exists added, snd (m h) = h ++ added /\ length added <= n.
Proof.
  intros Hw Hg. destruct (wa_frame (length h) m h eq_refl Hw) as [added Ha].
  exists added. split; [exact Ha|].
  destruct (Hg h) as [_ Hhi]. rewrite Ha, length_app in Hhi. lia.
Qed.

End GrowsBy.

Ltac grows_step :=
  first [ apply gb_call | apply gb_call2 | apply gb_deref | apply gb_lift
        | apply gb_ret | apply gb_raise
        | apply gb_for_each; intros ? ?
        | apply gb_bind0; [|intros ?] ].

Section Allocation.

Context {K : Kernel}.

Lemma gb_py_getitem (v : pyval) (i : nat) : grows_by 0 (py_getitem v i).
Proof. destruct v; cbn [py_getitem]; repeat grows_step. Qed.

Lemma gb_py_len (v : pyval) : grows_by 0 (py_len v).
Proof. destruct v; cbn [py_len]; repeat grows_step. Qed.

Lemma gb_py_clone (v : pyval) : grows_by 1 (py_clone v).
Proof.
  destruct v; cbn [py_clone]; try (apply (gb_weaken 0); [lia | apply gb_raise]).
  apply gb_clone.
Qed.

Lemma revolve_grows (surf : loc) (theta : float) : grows_by 1 (revolve surf theta).
Proof.
  unfold revolve, revolve_station. cbv zeta.
  apply (gb_bind 1 0); [apply gb_clone|]. intros c. repeat grows_step.
Qed.

Lemma cylinder_grows (r d : float) : grows_by 0 (cylinder r d).
Proof. unfold cylinder. repeat grows_step. Qed.

Lemma edge_surfaces_2_grows (surfaces : pyval) : grows_by 2 (edge_surfaces_2 surfaces).
Proof.
  unfold edge_surfaces_2.
  apply gb_bind0; [apply gb_py_getitem|]. intros s0.
  apply (gb_bind 1 1); [apply gb_py_clone|]. intros surf1.
  apply gb_bind0; [apply gb_py_getitem|]. intros s1.
  apply (gb_bind 1 0); [apply gb_py_clone|]. intros surf2.
  apply gb_bind0; [apply gb_call2|]. intros _.
  apply gb_bind0; [apply gb_deref|]. intros u1.
  destruct (np.shape (Surface.controlpoints u1)) as [|n1 [|n2 [|d [|]]]];
    repeat grows_step.
Qed.

Lemma edge_surfaces_6_grows (surfaces : pyval) : grows_by 6 (edge_surfaces_6 surfaces).
Proof.
  unfold edge_surfaces_6.
  do 6 (apply gb_bind0; [apply gb_py_getitem|]; intros ?).
  apply (gb_bind 2 4); [apply edge_surfaces_2_grows|]. intros vol1.
  apply (gb_bind 2 2); [apply edge_surfaces_2_grows|]. intros vol2.
  apply (gb_bind 2 0); [apply edge_surfaces_2_grows|]. intros vol3.
  cbv zeta. repeat grows_step.
Qed.

Lemma edge_surfaces_grows (args : list pyval) : grows_by 6 (edge_surfaces args).
Proof.
  unfold edge_surfaces. apply gb_bind0.
  - destruct (length args =? 1); [apply gb_py_getitem | apply gb_ret].
  - intros surfaces. apply gb_bind0; [apply gb_py_len|]. intros n.
    destruct (n =? 2); [apply (gb_weaken 2); [lia | apply edge_surfaces_2_grows]|].
    apply gb_bind0; [apply gb_py_len|]. intros n'.
    destruct (n' =? 6); [apply edge_surfaces_6_grows|].
    apply (gb_weaken 0); [lia | apply gb_raise].
Qed.

Lemma loft_solve_grows (surfaces : list loc) (basis3 : Basis) (dist : list float) :
  grows_by 0 (loft_solve surfaces basis3 dist).
Proof. unfold loft_solve. cbv zeta. repeat grows_step. Qed.

Lemma loft_parametrize_grows (surfaces : list loc) :
  grows_by 0 (loft_parametrize surfaces).
Proof.
  unfold loft_parametrize, loft_dist_step.
  match goal with |- context [if ?b then _ else _] => destruct b end.
  - repeat grows_step.
  - apply gb_bind0.
    + apply (gb_map_m 0). intros s. repeat grows_step.
    + intros x. cbv zeta. repeat grows_step.
Qed.

Lemma loft_grows (surfaces : list loc) : grows_by (length surfaces) (loft surfaces).
Proof.
  unfold loft. apply (gb_weaken (1 * length surfaces + 0)); [lia|].
  apply gb_bind.
  - apply gb_map_m. intros s.
    apply (gb_bind 1 0); [apply gb_clone|]. intros c. repeat grows_step.
  - intros clones. cbn beta.
    match goal with |- context [if ?b then _ else _] => destruct b end.
    + apply gb_bind0; [apply (gb_map_m 0); intros; apply gb_deref|].
      intros objs. repeat grows_step.
    + apply gb_bind0; [apply loft_parametrize_grows|]. intros p.
      apply gb_bind0; [apply loft_solve_grows|]. intros v. apply gb_ret.
Qed.

(** X9. What the constructors add to the store, whether they return or
    raise: [revolve] leaves the caller's objects as they are and adds at
    most one object (its clone of the profile); [edge_surfaces] adds at
    most six (its clones of the boundary surfaces); [loft] adds at most one
    per cross-section; [cylinder] leaves the store exactly as it is. *)
Theorem constructors_add_bounded_clones :
  (forall (surf : loc) (theta : float) (h : heap),
      exists added, snd (revolve surf theta h) = h ++ added /\ length added <= 1)
  /\ (forall (args : list pyval) (h : heap),
         exists added, snd (edge_surfaces args h) = h ++ added /\ length added <= 6)
  /\ (forall (surfaces : list loc) (h : heap),
         exists added,
           snd (loft surfaces h) = h ++ added /\ length added <= length surfaces)
  /\ (forall (r d : float) (h : heap), snd (cylinder r d h) = h).
Proof.
  split; [|split; [|split]].
  - intros surf theta h. apply frame_and_bound;
      [apply revolve_writes_above | apply revolve_grows].
  - intros args h. apply frame_and_bound;
      [apply edge_surfaces_writes_above | apply edge_surfaces_grows].
  - intros surfaces h. apply frame_and_bound;
      [apply loft_writes_above | apply loft_grows].
  - intros r d h.
    destruct (frame_and_bound (cylinder r d) 0 h (cylinder_writes_above _ r d)
                (cylinder_grows r d)) as (added & Ha & Hlen).
    destruct added; [|cbn in Hlen; lia]. now rewrite Ha, app_nil_r.
Qed.

End Allocation.

(** ** The further properties on concrete inputs *)

(** Extruding the unit square at height 0 by 1: the volume is the unit cube
    and the square is back where it was. *)
Lemma extrude_unit_square :
  @extrude K0 0 1%float [section 0] = (Ok unit_cube_volume, [section 0]).
Proof.
  refine (eq_trans
            (proj1 (@extrude_two_layers K0 0 1%float [section 0]
                      (section 0) (section 0) (section 1) (section 0) lin unit_cube_volume
                      _ _ _ _ _ _)) _);
    run.
Defined.

(** The same extrusion leaves the store as it was. *)
Lemma extrude_unit_square_restored :
  snd (@extrude K0 0 1%float [section 0]) = [section 0].
Proof.
  refine (@extrude_restores_input K0 0 1%float [section 0] (section 0) (section 1) _ _ _ _);
    run.
Defined.

(** A lone strip is rejected. *)
Lemma edge_surfaces_lone_strip_fails :
  exists e, @edge_surfaces K0 [PySurface 0] [strip] = (Raise e, [strip]).
Proof.
  apply (@edge_surfaces_lone_argument_fails K0 (PySurface 0) [strip]). reflexivity.
Defined.


(** Lofting the unit squares at heights 0, 1, 2: the parameters are the
    Greville points 0, 1/2, 1 of the quadratic basis, not the heights. *)
Lemma loft_three_unit_squares :
  @loft K0 [0; 1; 2] sections
  = bind (@loft_solve K0 [4; 5; 6] (mkBasis 3 [0; 0; 0; 1; 1; 1]%float (-1))
                      [0; 0.5; 1]%float)
         (fun v => ret (inl v)) (sections ++ [section 0; section 1; section 2]).
Proof.
  refine (proj1 (@loft_three_sections K0 [0; 1; 2] sections
                   [section 0; section 1; section 2]
                   (mkBasis 3 [0; 0; 0; 1; 1; 1]%float (-1)) [0; 0.5; 1]%float _ _ _ _)).
  - reflexivity.
  - repeat constructor; eexists; (split; [reflexivity | run]).
  - run.
  - run.
Defined.

(** The planar patch revolved from two different stores. *)
Lemma revolve_patch_anywhere :
  fst (@revolve K0 0 1%float [patch]) = fst (@revolve K0 1 2%float [strip; patch])
  /\ fst (@revolve K0 0 1%float (snd (@revolve K0 0 1%float [patch])))
     = fst (@revolve K0 0 1%float [patch]).
Proof.
  apply (@revolve_depends_on_profile_only K0 0 1 1%float 2%float [patch] [strip; patch]).
  reflexivity.
Defined.
